(** * rds-replica-monitor: the lag-trend estimator and the poll/detect/react loop

    A shallow embedding of [main.go]: the package-level [replicationStats]
    record, the body of [showReplicaStatus] and the monitoring loop of [main].

    - Go's [int] (64 bit) and [time.Duration] are [Z] with the wrap-around
      written out ([wrap64]).
    - Go's [float64] is Rocq's primitive binary64 [float]; its operations are
      the kernel's, specified by [FloatAxioms].
    - [time.Time] is a nanosecond count on one time line together with the
      location pointer; the wall and the monotonic reading of a [time.Time] are
      identified.
    - The standard-library calls [fmt.Sscanf(_, "%d", _)] and
      [regexp.MatchString] are parameters of the development.
    - Console and log output is a list of [OutLine]s, a constructor per
      [Printf]/[Println]/[log.Printf] call site, its arguments the values
      handed to the format. *)

From Stdlib Require Import ZArith List String Ascii Bool Lia Sorted Permutation.
From Stdlib Require Import Floats Uint63.
Import ListNotations.

Local Open Scope Z_scope.

(** ** Machine integers *)

Definition minInt64 : Z := - 2 ^ 63.
Definition maxInt64 : Z := 2 ^ 63 - 1.

Definition inInt64 (z : Z) : Prop := minInt64 <= z <= maxInt64.

(** Two's complement wrap-around of a 64-bit signed result. *)
Definition wrap64 (z : Z) : Z := (z + 2 ^ 63) mod 2 ^ 64 - 2 ^ 63.

(** ** float64 *)

Module F64.

Local Open Scope float_scope.

(** [float64(i)] for a Go [int]: the nearest binary64 value, ties to even.
    The magnitude goes through the primitive conversion of a 63-bit unsigned
    integer; [minInt64], whose magnitude does not fit, is a power of two. *)
Definition ofInt64 (z : Z) : float :=
  if (z =? minInt64)%Z then (-9223372036854775808)%float
  else if (z <? 0)%Z then - of_uint63 (Uint63.of_Z (- z))
  else of_uint63 (Uint63.of_Z z).

(** What the conversion [int64(x)] yields when [x] is NaN, infinite or out
    of range.  The language leaves it implementation-dependent; this is the
    value the amd64 conversion instruction produces. *)
Definition int64Indefinite : Z := minInt64.

(** [int64(x)] for a [float64]: truncation toward zero. *)
Definition truncToInt64 (x : float) : Z :=
  match Prim2SF x with
  | S754_zero _ => 0%Z
  | S754_finite s m e =>
      let a := if (0 <=? e)%Z then Z.shiftl (Zpos m) e
               else Z.shiftr (Zpos m) (- e) in
      let v := if s then (- a)%Z else a in
      if ((minInt64 <=? v) && (v <=? maxInt64))%Z%bool then v
      else int64Indefinite
  | _ => int64Indefinite
  end.

(** [x > 0], [x < 0] and [x != 0] on float64. *)
Definition gt0 (x : float) : bool := 0 <? x.
Definition lt0 (x : float) : bool := x <? 0.
Definition ne0 (x : float) : bool := negb (x =? 0).

(** *** Shapes of binary64 values, used to reason about signs *)

(** [1e9] as a binary64 value. *)
Definition sf1e9 : spec_float := S754_finite false 8388608000000000 (-23).

(** The value carries the sign [s] (or is NaN). *)
Definition SignF (s : bool) (x : spec_float) : Prop :=
  match x with
  | S754_nan => True
  | S754_zero s' | S754_infinity s' | S754_finite s' _ _ => s' = s
  end.

(** The value is positive and at least [2 ^ (k - 1)]. *)
Definition PosF (k : Z) (x : spec_float) : Prop :=
  match x with
  | S754_infinity false => True
  | S754_finite false m e => (k <= Z.log2 (Zpos m) + 1 + e)%Z
  | _ => False
  end.

Definition ZeroOrPos (k : Z) (x : spec_float) : Prop :=
  x = S754_zero false \/ PosF k x.

(** The value is not greater than zero. *)
Definition NonPosF (x : spec_float) : Prop :=
  match x with
  | S754_zero _ | S754_nan => True
  | S754_infinity s | S754_finite s _ _ => s = true
  end.

End F64.

(** ** time.Duration and time.Time *)

Module GoTime.

(** A [Duration] is an [int64] count of nanoseconds. *)
Definition Duration := Z.

Definition Nanosecond : Duration := 1.
Definition Second : Duration := 1000000000.
Definition minDuration : Duration := minInt64.
Definition maxDuration : Duration := maxInt64.

(** [d.Seconds()]: [float64(d / Second) + float64(d % Second) / 1e9], with
    Go's truncated division and remainder. *)
Definition Seconds (d : Duration) : float :=
  (F64.ofInt64 (Z.quot d Second) + F64.ofInt64 (Z.rem d Second) / 1e9)%float.

(** [time.Duration(n) * time.Second]: an [int64] product. *)
Definition mulDuration (n : Z) (unit : Duration) : Duration := wrap64 (n * unit).

(** The [*Location] of a [Time]: [nil] in the zero value [time.Time{}],
    [&localLoc] in every value [time.Now()] returns. *)
Inductive Location := LocNil | LocLocal.

Definition Location_eqb (a b : Location) : bool :=
  match a, b with
  | LocNil, LocNil | LocLocal, LocLocal => true
  | _, _ => false
  end.

(** [t_ns] counts nanoseconds since January 1, year 1, 00:00:00 UTC, the
    instant of the zero [Time]. *)
Record Time := mkTime { t_ns : Z; t_loc : Location }.

(** [time.Time{}] *)
Definition zeroTime : Time := mkTime 0 LocNil.

(** [t == u] on [time.Time] values: field-wise comparison of the struct. *)
Definition Time_eqb (t u : Time) : bool :=
  (t_ns t =? t_ns u) && Location_eqb (t_loc t) (t_loc u).

(** [t.IsZero()]: the instant is January 1, year 1, 00:00:00 UTC. *)
Definition IsZero (t : Time) : bool := t_ns t =? 0.

(** [t.Sub(u)]: the difference, saturated to the range of [Duration]. *)
Definition Sub (t u : Time) : Duration :=
  let d := t_ns t - t_ns u in
  if d <? minDuration then minDuration
  else if maxDuration <? d then maxDuration
  else d.

(** [t.Add(d)] *)
Definition Add (t : Time) (d : Duration) : Time :=
  mkTime (t_ns t + d) (t_loc t).

(** Nanoseconds from the zero [Time] to the Unix epoch
    ([unixToInternal] seconds in package time). *)
Definition unixEpochNs : Z := 62135596800 * 1000000000.

(** [time.Now()] when the clock reads [unixNano] nanoseconds since the Unix
    epoch. *)
Definition Now (unixNano : Z) : Time := mkTime (unixEpochNs + unixNano) LocLocal.

End GoTime.

Import GoTime.

(** ** The lag state *)

(** [type ReplicationStats struct] *)
Record ReplicationStats := mkStats {
  lastSecondsBehind : Z;
  lastCheckTime : Time;
  ratePerSecond : float;
  estimatedTime : Time;
  startSecondsBehind : Z;
  startTime : Time;
  totalTimeElapsed : float;
  averageRatePerSecond : float
}.

(** [var replicationStats ReplicationStats]: every field at its zero value. *)
Definition replicationStats0 : ReplicationStats :=
  mkStats 0 zeroTime 0%float zeroTime 0 zeroTime 0%float 0%float.

Definition set_start (st : ReplicationStats) (seconds : Z) (now : Time) :=
  mkStats (lastSecondsBehind st) (lastCheckTime st) (ratePerSecond st)
          (estimatedTime st) seconds now
          (totalTimeElapsed st) (averageRatePerSecond st).

Definition set_ratePerSecond (st : ReplicationStats) (r : float) :=
  mkStats (lastSecondsBehind st) (lastCheckTime st) r
          (estimatedTime st) (startSecondsBehind st) (startTime st)
          (totalTimeElapsed st) (averageRatePerSecond st).

Definition set_estimatedTime (st : ReplicationStats) (t : Time) :=
  mkStats (lastSecondsBehind st) (lastCheckTime st) (ratePerSecond st)
          t (startSecondsBehind st) (startTime st)
          (totalTimeElapsed st) (averageRatePerSecond st).

Definition set_averageRatePerSecond (st : ReplicationStats) (r : float) :=
  mkStats (lastSecondsBehind st) (lastCheckTime st) (ratePerSecond st)
          (estimatedTime st) (startSecondsBehind st) (startTime st)
          (totalTimeElapsed st) r.

Definition set_last (st : ReplicationStats) (seconds : Z) (now : Time) :=
  mkStats seconds now (ratePerSecond st)
          (estimatedTime st) (startSecondsBehind st) (startTime st)
          (totalTimeElapsed st) (averageRatePerSecond st).

(** ** The lag-trend update (main.go, lines 181-211)

    Each step returns the new state together with the elapsed time intervals
    (in seconds, as float64) it divided by, in program order. *)

(** Lines 182-185: the long-term anchor. *)
Definition initStart (st : ReplicationStats) (seconds : Z) (now : Time) : ReplicationStats :=
  if Time_eqb (startTime st) zeroTime then set_start st seconds now else st.

(** Lines 188-200: the short-term rate and its estimate. *)
Definition updateInstant (st : ReplicationStats) (seconds : Z) (now : Time)
  : ReplicationStats * list float :=
  if negb (Time_eqb (lastCheckTime st) zeroTime) then
    let timeDiff := Seconds (Sub now (lastCheckTime st)) in
    if F64.gt0 timeDiff then
      let secondsDiff := wrap64 (seconds - lastSecondsBehind st) in
      let st1 := set_ratePerSecond st (F64.ofInt64 secondsDiff / timeDiff)%float in
      if F64.lt0 (ratePerSecond st1) then
        let secondsToCatchUp := (F64.ofInt64 seconds / - ratePerSecond st1)%float in
        (set_estimatedTime st1
           (Add now (mulDuration (F64.truncToInt64 secondsToCatchUp) Second)),
         [timeDiff])
      else (st1, [timeDiff])
    else (st, [])
  else (st, []).

(** Lines 203-207: the long-term average rate. *)
Definition updateAverage (st : ReplicationStats) (seconds : Z) (now : Time)
  : ReplicationStats * list float :=
  let totalTimeElapsed := Seconds (Sub now (startTime st)) in
  if F64.gt0 totalTimeElapsed then
    let totalSecondsDiff := wrap64 (seconds - startSecondsBehind st) in
    (set_averageRatePerSecond st (F64.ofInt64 totalSecondsDiff / totalTimeElapsed)%float,
     [totalTimeElapsed])
  else (st, []).

(** Lines 181-211. *)
Definition updateLagTraced (st : ReplicationStats) (seconds : Z) (now : Time)
  : ReplicationStats * list float :=
  let st1 := initStart st seconds now in
  let '(st2, ds1) := updateInstant st1 seconds now in
  let '(st3, ds2) := updateAverage st2 seconds now in
  (set_last st3 seconds now, ds1 ++ ds2).

Definition updateLag (st : ReplicationStats) (seconds : Z) (now : Time) : ReplicationStats :=
  fst (updateLagTraced st seconds now).

Definition updateLagDivisors (st : ReplicationStats) (seconds : Z) (now : Time) : list float :=
  snd (updateLagTraced st seconds now).

(** A run of update calls: one [(lag, clock reading)] sample per call, the
    clock reading in nanoseconds since the Unix epoch. *)
Definition Sample := (Z * Z)%type.

Definition updateSample (st : ReplicationStats) (s : Sample) : ReplicationStats :=
  updateLag st (fst s) (Now (snd s)).

Definition runUpdates (st : ReplicationStats) (samples : list Sample) : ReplicationStats :=
  fold_left updateSample samples st.

(** ** Output *)

(** Go's [error], by its message. *)
Definition error := string.

(** One constructor per output call site of [showReplicaStatus] and [main];
    the arguments are the values handed to the format string. *)
Inductive OutLine :=
| LogQueryError (e : error)
| LogColumnsError (e : error)
| LogScanError (e : error)
| OutHeader
| OutRule
| OutField (field strVal : string)
| OutFieldNull (field : string)
| OutLagDHMS (field : string) (days hours minutes secs : Z)
| OutLagHMS (field : string) (hours minutes secs : Z)
| OutLagMS (field : string) (minutes secs : Z)
| OutLagS (field : string) (secs : Z)
| OutCaughtUp (field : string) (seconds : Z)
| OutPerformance
| OutInstantCatchingUp (rate : float)
| OutInstantETA (eta : Duration) (estimated : Time)
| OutInstantFallingBehind (rate : float)
| OutAverageCatchingUp (rate : float)
| OutAverageETA (eta : Duration) (estimated : Time)
| OutAverageFallingBehind (rate : float)
| OutBlank
| LogRegexError (pattern : string) (e : error)
| OutPatternFound (pattern : string)
| OutNoReplicaStatus
| OutWarning
| OutExecuting
| LogExecError (e : error)
| OutExecSuccess.

(** Lines 213-230: the lag, broken down by its largest non-zero unit. *)
Definition lagLine (field : string) (seconds : Z) : OutLine :=
  if 0 <? seconds then
    let days := Z.quot seconds 86400 in
    let hours := Z.quot (Z.rem seconds 86400) 3600 in
    let minutes := Z.quot (Z.rem seconds 3600) 60 in
    let secs := Z.rem seconds 60 in
    if 0 <? days then OutLagDHMS field days hours minutes secs
    else if 0 <? hours then OutLagHMS field hours minutes secs
    else if 0 <? minutes then OutLagMS field minutes secs
    else OutLagS field secs
  else OutCaughtUp field seconds.

(** Lines 236-267: the short-term rate and, when catching up, its estimate.
    The four [Instant ETA] formats differ only in the units they print and
    are one constructor. *)
Definition instantLines (st : ReplicationStats) (now : Time) : list OutLine :=
  if F64.ne0 (ratePerSecond st) then
    if F64.lt0 (ratePerSecond st) then
      OutInstantCatchingUp (- ratePerSecond st)%float ::
      (if negb (IsZero (estimatedTime st)) then
         [OutInstantETA (Sub (estimatedTime st) now) (estimatedTime st)]
       else [])
    else [OutInstantFallingBehind (ratePerSecond st)]
  else [].

(** Lines 270-305: the long-term rate and an estimate derived on the spot;
    again one constructor stands for the four [Average ETA] formats. *)
Definition averageLines (st : ReplicationStats) (seconds : Z) (now : Time) : list OutLine :=
  if F64.ne0 (averageRatePerSecond st) then
    if F64.lt0 (averageRatePerSecond st) then
      OutAverageCatchingUp (- averageRatePerSecond st)%float ::
      (if 0 <? seconds then
         let secondsToCatchUp := (F64.ofInt64 seconds / - averageRatePerSecond st)%float in
         let averageETA := Add now (mulDuration (F64.truncToInt64 secondsToCatchUp) Second) in
         [OutAverageETA (Sub averageETA now) averageETA]
       else [])
    else [OutAverageFallingBehind (averageRatePerSecond st)]
  else [].

(** Lines 213-305, on the state the update left. *)
Definition lagReport (field : string) (st : ReplicationStats) (seconds : Z) (now : Time)
  : list OutLine :=
  lagLine field seconds :: OutPerformance :: instantLines st now ++ averageLines st seconds now.

(** ** One row of SHOW REPLICA STATUS *)

(** A scanned column value ([interface{}]): [nil] for SQL NULL, [[]byte],
    [string], or anything else, carried as its [%v] rendering. *)
Inductive Value :=
| VNil
| VBytes (b : string)
| VString (s : string)
| VOther (rendered : string).

(** Lines 161-169: the [switch v := val.(type)]; [None] for [nil]. *)
Definition strValOf (v : Value) : option string :=
  match v with
  | VNil => None
  | VBytes b => Some b
  | VString s => Some s
  | VOther r => Some r
  end.

(** The columns of the result set, each with the value scanned for it. *)
Definition Row := list (string * Value).

(** Lines 156-157, 318: the first column named [field]. *)
Fixpoint findColumn (field : string) (row : Row) : option Value :=
  match row with
  | [] => None
  | (col, val) :: rest => if String.eqb col field then Some val else findColumn field rest
  end.

(** Lines 142-153. *)
Definition keyFields : list string :=
  [ "Replica_IO_State"; "Source_Host"; "Source_Port"; "Replica_IO_Running";
    "Replica_SQL_Running"; "Replicate_Do_DB"; "Replicate_Ignore_DB";
    "Last_IO_Error"; "Last_SQL_Error"; "Seconds_Behind_Source" ]%string.

(** Lines 122-124. *)
Definition errorPatterns : list string := [ "Coordinator stopped" ]%string.

(** What [db.Query], [rows.Columns], [rows.Next] and [rows.Scan] deliver in
    one call of [showReplicaStatus]. *)
Inductive QueryOutcome :=
| QueryFailed (e : error)
| ColumnsFailed (e : error)
| NoRows
| ScanFailed (e : error)
| Scanned (row : Row).

Section Monitor.

(** [fmt.Sscanf(strVal, "%d", &seconds)]: the integer scanned, or [None]
    when it returns an error. *)
Variable Sscanf_d : string -> option Z.

(** [regexp.MatchString(pattern, s)]: the pair [(matched, err)]. *)
Variable MatchString : string -> string -> bool * option error.

(** The variables of [showReplicaStatus] that the field loop assigns,
    together with the lines printed so far. *)
Record Cycle := mkCycle {
  stats : ReplicationStats;
  lastSQLError : string;
  printed : list OutLine
}.

Definition print (c : Cycle) (ls : list OutLine) : Cycle :=
  mkCycle (stats c) (lastSQLError c) (printed c ++ ls).

(** Lines 177-311: the [Seconds_Behind_Source] branch. *)
Definition showLag (c : Cycle) (field strVal : string) (now : Time) : Cycle :=
  if negb (String.eqb strVal "NULL") && negb (String.eqb strVal EmptyString) then
    match Sscanf_d strVal with
    | Some seconds =>
        let st := updateLag (stats c) seconds now in
        mkCycle st (lastSQLError c) (printed c ++ lagReport field st seconds now)
    | None => print c [OutField field strVal]
    end
  else print c [OutField field strVal].

(** Lines 156-320: the body of the loop over [keyFields] for one field. *)
Definition showField (row : Row) (now : Time) (c : Cycle) (field : string) : Cycle :=
  match findColumn field row with
  | None => c
  | Some val =>
      match strValOf val with
      | None => print c [OutFieldNull field]
      | Some strVal =>
          let c1 := if String.eqb field "Last_SQL_Error"
                    then mkCycle (stats c) strVal (printed c) else c in
          if String.eqb field "Seconds_Behind_Source"
          then showLag c1 field strVal now
          else print c1 [OutField field strVal]
      end
  end.

(** Lines 326-336: the loop over the patterns; [hasError] is threaded. *)
Fixpoint matchPatterns (patterns : list string) (s : string) (hasError : bool)
  : bool * list OutLine :=
  match patterns with
  | [] => (hasError, [])
  | pattern :: rest =>
      let '(matched, err) := MatchString pattern s in
      match err with
      | Some e =>
          let '(h, out) := matchPatterns rest s hasError in
          (h, LogRegexError pattern e :: out)
      | None =>
          if matched then
            let '(h, out) := matchPatterns rest s true in
            (h, OutPatternFound pattern :: out)
          else matchPatterns rest s hasError
      end
  end.

(** Lines 325-337. *)
Definition checkErrorPatterns (patterns : list string) (lastSQLError : string)
  : bool * list OutLine :=
  if negb (String.eqb lastSQLError EmptyString) then matchPatterns patterns lastSQLError false
  else (false, []).

(** [showReplicaStatus]: the new lag state, the returned [hasError] and the
    lines written, given the clock reading and what the database delivered. *)
Definition showReplicaStatus (st : ReplicationStats) (unixNano : Z) (q : QueryOutcome)
  : ReplicationStats * bool * list OutLine :=
  let now := Now unixNano in
  match q with
  | QueryFailed e => (st, false, [LogQueryError e])
  | ColumnsFailed e => (st, false, [LogColumnsError e])
  | ScanFailed e => (st, false, [LogScanError e])
  | NoRows => (st, false, [OutNoReplicaStatus])
  | Scanned row =>
      let c := fold_left (showField row now) keyFields
                 (mkCycle st EmptyString [OutHeader; OutRule]) in
      let '(hasError, out) := checkErrorPatterns errorPatterns (lastSQLError c) in
      (stats c, hasError, printed c ++ OutBlank :: out)
  end.

(** ** The monitoring loop of [main] (lines 77-95) *)

(** What the process does to the outside world. *)
Inductive Event :=
| EvQuery                 (* db.Query("SHOW REPLICA STATUS") *)
| EvOut (l : OutLine)
| EvExec                  (* db.Exec("CALL mysql.rds_skip_repl_error;") *)
| EvSleep (d : Duration).

(** What the outside world answers in one iteration: the clock, the query,
    and the result of [db.Exec] should it be called ([None] for success). *)
Record CycleEnv := mkEnv {
  clock : Z;
  query : QueryOutcome;
  execErr : option error
}.

(** Lines 84-89. *)
Definition recover (env : CycleEnv) : list Event :=
  [ EvOut OutWarning; EvOut OutExecuting; EvExec;
    EvOut (match execErr env with
           | Some e => LogExecError e
           | None => OutExecSuccess
           end) ].

(** One iteration of the [for] loop. *)
Definition iteration (st : ReplicationStats) (env : CycleEnv)
  : ReplicationStats * list Event :=
  let '(st', hasError, out) := showReplicaStatus st (clock env) (query env) in
  (st', EvQuery :: map EvOut out ++
        (if hasError then recover env else [EvSleep (5 * Second)])).

(** The first iterations of the loop, one per element of [envs]. *)
Fixpoint mainLoop (st : ReplicationStats) (envs : list CycleEnv)
  : ReplicationStats * list Event :=
  match envs with
  | [] => (st, [])
  | env :: rest =>
      let '(st1, evs) := iteration st env in
      let '(st2, evs') := mainLoop st1 rest in
      (st2, evs ++ evs')
  end.

End Monitor.

(** ** Models of the two library calls, for running the monitor on examples *)

(** Modelled from the source of package [fmt], scan.go (the package is not
    part of the repository): [Sscanf(s, "%d", &n)] skips leading space
    characters and fails on a newline among them, reads an optional sign and
    a non-empty run of the digits [0123456789], and leaves what follows
    unread; the sign and the digits go to [strconv.ParseInt], which fails
    when the value is outside the range of [int64]. *)

(** [isSpace] of scan.go on the first character of [s], a string of bytes in
    UTF-8: the number of bytes of that character when it is a space, and 0
    otherwise.  The spaces are U+0009 to U+000D, U+0020, U+0085, U+00A0,
    U+1680, U+2000 to U+200A, U+2028, U+2029, U+202F, U+205F and U+3000. *)
Definition spaceWidth (s : list ascii) : nat :=
  match map N_of_ascii s with
  | b1 :: rest =>
      if (((9 <=? b1) && (b1 <=? 13)) || (b1 =? 32))%N%bool then 1%nat
      else
        match rest with
        | b2 :: rest' =>
            if ((b1 =? 194) && ((b2 =? 133) || (b2 =? 160)))%N%bool then 2%nat
            else
              match rest' with
              | b3 :: _ =>
                  if (((b1 =? 225) && (b2 =? 154) && (b3 =? 128))
                      || ((b1 =? 226) && (b2 =? 128)
                          && (((128 <=? b3) && (b3 <=? 138))
                              || (b3 =? 168) || (b3 =? 169) || (b3 =? 175)))
                      || ((b1 =? 226) && (b2 =? 129) && (b3 =? 159))
                      || ((b1 =? 227) && (b2 =? 128) && (b3 =? 128)))%N%bool
                  then 3%nat else 0%nat
              | [] => 0%nat
              end
        | [] => 0%nat
        end
  | [] => 0%nat
  end.

(** [SkipSpace] of scan.go as [Sscanf] runs it: a newline is an error. *)
Fixpoint SkipSpace (s : list ascii) : option (list ascii) :=
  match s with
  | [] => Some []
  | c1 :: s1 =>
      if Ascii.eqb c1 "010"%char then None
      else
        match spaceWidth s with
        | 1%nat => SkipSpace s1
        | 2%nat => match s1 with
                   | _ :: s2 => SkipSpace s2
                   | [] => Some s
                   end
        | 3%nat => match s1 with
                   | _ :: _ :: s3 => SkipSpace s3
                   | _ => Some s
                   end
        | _ => Some s
        end
  end.

Definition isDigit (c : ascii) : bool :=
  ((48 <=? N_of_ascii c) && (N_of_ascii c <=? 57))%N%bool.

Fixpoint takeNumber (s : list ascii) : list ascii :=
  match s with
  | c :: s' => if isDigit c then c :: takeNumber s' else []
  | [] => []
  end.

Definition digitsValue (tok : list ascii) : Z :=
  fold_left (fun acc c => 10 * acc + (Z.of_N (N_of_ascii c) - 48)) tok 0.

Definition scanDecimal (s : string) : option Z :=
  match SkipSpace (list_ascii_of_string s) with
  | None => None
  | Some s =>
      let '(neg, s) :=
        match s with
        | c :: s' =>
            if Ascii.eqb c "-"%char then (true, s')
            else if Ascii.eqb c "+"%char then (false, s')
            else (false, s)
        | [] => (false, s)
        end in
      match takeNumber s with
      | [] => None
      | tok =>
          let v := if neg then - digitsValue tok else digitsValue tok in
          if ((minInt64 <=? v) && (v <=? maxInt64))%bool then Some v else None
      end
  end.

(** The characters with a meaning of their own in the syntax of package
    [regexp]. *)
Definition regexpMeta : list ascii :=
  list_ascii_of_string "\.+*?()|[]{}^$".

(** The pattern is a run of ordinary ASCII characters: no byte of it is
    above 127 (so that it is valid UTF-8) and none is a metacharacter. *)
Definition literalPattern (p : string) : bool :=
  forallb (fun c => ((N_of_ascii c <? 128)%N && negb (existsb (Ascii.eqb c) regexpMeta))%bool)
          (list_ascii_of_string p).

(** [p] occurs in [s]. *)
Fixpoint containsb (p s : string) : bool :=
  (String.prefix p s ||
   match s with
   | EmptyString => false
   | String _ s' => containsb p s'
   end)%bool.

(** Modelled from the documentation of package [regexp] (the package is not
    part of the repository): a pattern of ordinary ASCII characters compiles
    and matches when it occurs anywhere in the text.  This is a partial model:
    it answers as [regexp.MatchString] does on these patterns and on patterns
    that do not compile, such as ["Coordinator (stopped"]; on every other
    pattern it reports an error where [regexp.MatchString] interprets the
    metacharacters, and it is used on no such pattern. *)
Definition literalMatchString (pattern s : string) : bool * option error :=
  if literalPattern pattern then (containsb pattern s, None)
  else (false, Some "pattern outside the model"%string).

(** ** Notions used to state the properties *)

(** The contribution of one pattern to [hasError]: it matched and
    [MatchString] returned no error. *)
Definition patternMatches (MatchString : string -> string -> bool * option error)
  (s pattern : string) : bool :=
  match MatchString pattern s with
  | (matched, None) => matched
  | (_, Some _) => false
  end.

(** The lag sample a row carries: the scanned value of the first
    [Seconds_Behind_Source] column, when that column exists, is not NULL,
    is neither ["NULL"] nor empty, and scans as an integer. *)
Definition lagSample (Sscanf_d : string -> option Z) (row : Row) : option Z :=
  match findColumn "Seconds_Behind_Source" row with
  | Some v =>
      match strValOf v with
      | Some strVal =>
          if (negb (String.eqb strVal "NULL") && negb (String.eqb strVal EmptyString))%bool
          then Sscanf_d strVal else None
      | None => None
      end
  | None => None
  end.

(** The sample a cycle feeds to the lag-trend update, if any. *)
Definition cycleSample (Sscanf_d : string -> option Z) (env : CycleEnv) : option Sample :=
  match query env with
  | Scanned row =>
      match lagSample Sscanf_d row with
      | Some lag => Some (lag, clock env)
      | None => None
      end
  | _ => None
  end.

(** The samples of a run of cycles, in order. *)
Definition samplesOf (Sscanf_d : string -> option Z) (envs : list CycleEnv) : list Sample :=
  flat_map (fun env => match cycleSample Sscanf_d env with
                       | Some s => [s]
                       | None => []
                       end) envs.

(** The text [showReplicaStatus] keeps in [lastSQLError]. *)
Definition lastSQLErrorOf (row : Row) : string :=
  match findColumn "Last_SQL_Error" row with
  | Some v => match strValOf v with Some s => s | None => EmptyString end
  | None => EmptyString
  end.

Definition isExec (e : Event) : bool :=
  match e with EvExec => true | _ => false end.

Definition isSleep (e : Event) : bool :=
  match e with EvSleep _ => true | _ => false end.

Definition isQuery (e : Event) : bool :=
  match e with EvQuery => true | _ => false end.

(** How often the recovery command is executed, and how often the loop
    sleeps, in a trace. *)
Definition execCount (evs : list Event) : nat := List.length (filter isExec evs).
Definition sleepCount (evs : list Event) : nat := List.length (filter isSleep evs).

(** The invariant of the lag state behind the instant estimate: it is set
    whenever the short-term rate is negative. *)
Definition etaInv (st : ReplicationStats) : Prop :=
  F64.lt0 (ratePerSecond st) = true -> IsZero (estimatedTime st) = false.

(** Times strictly increase along the samples. *)
Definition increasingTime (samples : list Sample) : Prop :=
  Sorted Z.lt (map snd samples).

(** The clock never reads a time before the Unix epoch. *)
Definition clockAfterEpoch (samples : list Sample) : Prop :=
  Forall (fun s => 0 <= snd s) samples.

(** ** Further notions used to state properties *)

(** The value is not zero, carries the sign [s] and has magnitude at least
    [2 ^ (k - 1)]. *)
Definition NonZeroF (s : bool) (k : Z) (x : spec_float) : Prop :=
  match x with
  | S754_infinity s' => s' = s
  | S754_finite s' m e => s' = s /\ k <= Z.log2 (Zpos m) + 1 + e
  | _ => False
  end.

(** The value is finite and positive, with magnitude in
    [[2 ^ (lo - 1), 2 ^ hi)]. *)
Definition BoundF (lo hi : Z) (x : spec_float) : Prop :=
  match x with
  | S754_finite false m e => lo <= Z.log2 (Zpos m) + 1 + e <= hi
  | _ => False
  end.


(** The lag a lag line stands for. *)
Definition lagLineSeconds (l : OutLine) : option Z :=
  match l with
  | OutLagDHMS _ d h m s => Some (d * 86400 + h * 3600 + m * 60 + s)
  | OutLagHMS _ h m s => Some (h * 3600 + m * 60 + s)
  | OutLagMS _ m s => Some (m * 60 + s)
  | OutLagS _ s => Some s
  | OutCaughtUp _ s => Some s
  | _ => None
  end.

(** The units of a lag line are in range and its leading unit is not zero. *)
Definition lagLineInRange (l : OutLine) : Prop :=
  match l with
  | OutLagDHMS _ d h m s => 0 < d /\ 0 <= h < 24 /\ 0 <= m < 60 /\ 0 <= s < 60
  | OutLagHMS _ h m s => 0 < h < 24 /\ 0 <= m < 60 /\ 0 <= s < 60
  | OutLagMS _ m s => 0 < m < 60 /\ 0 <= s < 60
  | OutLagS _ s => 0 < s < 60
  | OutCaughtUp _ s => s <= 0
  | _ => False
  end.


(** The column is one of the ten fields [showReplicaStatus] looks up. *)
Definition isKeyField (col : string) : bool := existsb (String.eqb col) keyFields.

(** The lines one pattern contributes. *)
Definition patternLines (MatchString : string -> string -> bool * option error)
  (s pattern : string) : list OutLine :=
  match MatchString pattern s with
  | (_, Some e) => [LogRegexError pattern e]
  | (true, None) => [OutPatternFound pattern]
  | (false, None) => []
  end.

(** The cycle ends in the recovery command: its row carries an error text
    that matches. *)
Definition matchedCycle (MatchString : string -> string -> bool * option error)
  (env : CycleEnv) : bool :=
  match query env with
  | Scanned row => fst (checkErrorPatterns MatchString errorPatterns (lastSQLErrorOf row))
  | _ => false
  end.

(** How often the status is queried in a trace. *)
Definition queryCount (evs : list Event) : nat := List.length (filter isQuery evs).

(** The trace of one iteration that met [env]: the query, then output lines
    only, then the recovery command and the line that reports its result
    when the cycle matched, and a sleep of five seconds otherwise. *)
Definition iterationShape (MatchString : string -> string -> bool * option error)
  (env : CycleEnv) (evs : list Event) : Prop :=
  exists out,
    evs = EvQuery :: map EvOut out ++
          (if matchedCycle MatchString env
           then [EvExec; EvOut (match execErr env with
                                | Some e => LogExecError e
                                | None => OutExecSuccess
                                end)]
           else [EvSleep (5 * Second)]).


(** The line of a key field other than the lag. *)
Definition plainLines (row : Row) (field : string) : list OutLine :=
  match findColumn field row with
  | None => []
  | Some v =>
      match strValOf v with
      | None => [OutFieldNull field]
      | Some strVal => [OutField field strVal]
      end
  end.

(** The lines of the [Seconds_Behind_Source] field. *)
Definition lagLines (Sscanf_d : string -> option Z) (st : ReplicationStats) (now : Time)
  (row : Row) : list OutLine :=
  match lagSample Sscanf_d row with
  | Some seconds =>
      lagReport "Seconds_Behind_Source" (updateLag st seconds now) seconds now
  | None => plainLines row "Seconds_Behind_Source"
  end.

Definition isPatternFound (l : OutLine) : bool :=
  match l with OutPatternFound _ => true | _ => false end.

Definition isPerformance (l : OutLine) : bool :=
  match l with OutPerformance => true | _ => false end.


(** * Facts about binary64 arithmetic

    The sign of [d.Seconds()] is the sign of [d].  The proofs go through the
    specification of the primitive operations ([FloatAxioms]) and follow the
    rounding function of [SpecFloat] far enough to see that a value of
    magnitude at least [2 ^ -1074] is not rounded to zero. *)

Module F64Facts.

Import F64.

Lemma digits2_log2 (m : positive) : Zpos (digits2_pos m) = Z.log2 (Zpos m) + 1.
Proof.
  destruct m as [p|p|]; simpl; try reflexivity.
  - induction p; simpl; lia.
  - induction p; simpl; lia.
Qed.

Lemma shr_1_m (r : shr_record) : 0 <= shr_m r -> shr_m (shr_1 r) = Z.div2 (shr_m r).
Proof.
  destruct r as [m rb sb]; simpl.
  destruct m as [|[p|p|]|p]; simpl; intros; try reflexivity; lia.
Qed.

Lemma iter_pos_shr_m (p : positive) : forall r, 0 <= shr_m r ->
  shr_m (iter_pos shr_1 p r) = Z.shiftr (shr_m r) (Zpos p).
Proof.
  induction p; intros r Hr; simpl iter_pos.
  - assert (H1 : 0 <= shr_m (shr_1 r)).
    { rewrite shr_1_m by assumption. rewrite Z.div2_div. apply Z.div_pos; lia. }
    rewrite IHp.
    2:{ rewrite IHp by assumption. apply Z.shiftr_nonneg. assumption. }
    rewrite IHp by assumption. rewrite shr_1_m by assumption.
    rewrite Z.div2_spec. rewrite !Z.shiftr_shiftr by lia. f_equal. lia.
  - rewrite IHp.
    2:{ rewrite IHp by assumption. apply Z.shiftr_nonneg. assumption. }
    rewrite IHp by assumption. rewrite !Z.shiftr_shiftr by lia. f_equal. lia.
  - rewrite shr_1_m by assumption. apply Z.div2_spec.
Qed.

Lemma shr_m_of_loc m l : shr_m (shr_record_of_loc m l) = m.
Proof. destruct l as [|[]]; reflexivity. Qed.

Lemma shiftr_pos_log2 m n : 0 < m -> 0 <= n <= Z.log2 m ->
  0 < Z.shiftr m n /\ Z.log2 (Z.shiftr m n) = Z.log2 m - n.
Proof.
  intros Hm Hn.
  assert (H : Z.log2 (Z.shiftr m n) = Z.log2 m - n) by (rewrite Z.log2_shiftr by lia; lia).
  split; [|exact H].
  rewrite Z.shiftr_div_pow2 by lia.
  destruct (Z.log2_spec m Hm) as [Hlo _].
  assert (2 ^ n <= 2 ^ Z.log2 m) by (apply Z.pow_le_mono_r; lia).
  assert (0 < 2 ^ n) by (apply Z.pow_pos_nonneg; lia).
  apply Z.div_str_pos. lia.
Qed.

Lemma fexp_eq e : fexp prec emax e = Z.max (e - 53) (-1074).
Proof. reflexivity. Qed.

(** Shifting a mantissa to its canonical exponent keeps its leading bit. *)
Lemma shr_fexp_pos m e l : 0 < m -> -1074 < Z.log2 m + 1 + e ->
  0 < shr_m (fst (shr_fexp prec emax m e l)) /\
  Z.log2 (shr_m (fst (shr_fexp prec emax m e l))) + snd (shr_fexp prec emax m e l)
  = Z.log2 m + e.
Proof.
  intros Hm Hk. unfold shr_fexp, shr.
  assert (HD : Zdigits2 m = Z.log2 m + 1).
  { destruct m as [|p|p]; try lia. simpl. apply digits2_log2. }
  rewrite HD, fexp_eq.
  destruct (Z.max (Z.log2 m + 1 + e - 53) (-1074) - e) as [|p|p] eqn:En;
    simpl fst; simpl snd; rewrite ?shr_m_of_loc; try (split; lia).
  rewrite iter_pos_shr_m by (rewrite shr_m_of_loc; lia).
  rewrite shr_m_of_loc.
  destruct (shiftr_pos_log2 m (Zpos p) Hm) as [H1 H2]; [lia|].
  split; [exact H1 | lia].
Qed.

Lemma round_nearest_even_ge m l : 0 < m -> m <= round_nearest_even m l.
Proof. destruct l as [|[]]; simpl; try lia. destruct (Z.even m); lia. Qed.

(** Rounding a positive value of magnitude at least [2 ^ -1074] gives a
    positive value that is not smaller than its leading power of two. *)
Lemma binary_round_aux_pos m e l : 0 < m -> -1074 < Z.log2 m + 1 + e ->
  PosF (Z.log2 m + 1 + e) (binary_round_aux prec emax false m e l).
Proof.
  intros Hm Hk. unfold binary_round_aux.
  destruct (shr_fexp_pos m e l Hm Hk) as [H1 H2].
  destruct (shr_fexp prec emax m e l) as [mrs' e'] eqn:E1.
  simpl fst in *; simpl snd in *.
  set (m2 := round_nearest_even (shr_m mrs') (loc_of_shr_record mrs')).
  assert (Hm2 : shr_m mrs' <= m2) by (apply round_nearest_even_ge; assumption).
  assert (Hl2 : Z.log2 (shr_m mrs') <= Z.log2 m2) by (apply Z.log2_le_mono; assumption).
  destruct (shr_fexp_pos m2 e' loc_Exact) as [H3 H4]; [lia | lia | idtac].
  destruct (shr_fexp prec emax m2 e' loc_Exact) as [mrs'' e''] eqn:E2.
  simpl fst in *; simpl snd in *.
  destruct (shr_m mrs'') as [|p|p] eqn:E3; try lia.
  destruct (e'' <=? emax - prec); cbn [PosF]; [lia | exact I].
Qed.

Lemma pos_iter_xO m d : Zpos (Pos.iter xO m d) = Z.shiftl (Zpos m) (Zpos d).
Proof.
  unfold Z.shiftl. apply (Pos.iter_swap_gen _ _ Zpos xO (Z.mul 2)). reflexivity.
Qed.

Lemma shl_align_log2 mx ex ex' :
  Z.log2 (Zpos (fst (shl_align mx ex ex'))) + snd (shl_align mx ex ex')
  = Z.log2 (Zpos mx) + ex.
Proof.
  unfold shl_align.
  destruct (ex' - ex) as [|d|d] eqn:E; simpl fst; simpl snd; try reflexivity.
  rewrite pos_iter_xO, Z.log2_shiftl by lia. lia.
Qed.

Lemma shl_align_snd mx ex ex' : ex' <= ex -> snd (shl_align mx ex ex') = ex'.
Proof.
  intros H. unfold shl_align. destruct (ex' - ex) as [|d|d] eqn:E; simpl; lia.
Qed.

Lemma binary_round_pos m e : -1074 < Z.log2 (Zpos m) + 1 + e ->
  PosF (Z.log2 (Zpos m) + 1 + e) (binary_round prec emax false m e).
Proof.
  intros Hk. unfold binary_round.
  pose proof (shl_align_log2 m e (fexp prec emax (Zpos (digits2_pos m) + e))) as H.
  destruct (shl_align m e (fexp prec emax (Zpos (digits2_pos m) + e))) as [mz ez].
  simpl fst in H; simpl snd in H.
  replace (Z.log2 (Zpos m) + 1 + e) with (Z.log2 (Zpos mz) + 1 + ez) by lia.
  apply binary_round_aux_pos; lia.
Qed.

Lemma PosF_weaken k k' x : k' <= k -> PosF k x -> PosF k' x.
Proof. destruct x as [| [] | | [] m e]; simpl; auto; lia. Qed.

(** The sign of a rounded value is the sign asked for. *)
Lemma binary_round_aux_sign s m e l : SignF s (binary_round_aux prec emax s m e l).
Proof.
  unfold binary_round_aux.
  destruct (shr_fexp prec emax m e l) as [mrs' e'].
  destruct (shr_fexp prec emax _ e' loc_Exact) as [mrs'' e''].
  destruct (shr_m mrs''); [reflexivity | | exact I].
  destruct (Z.leb _ _); reflexivity.
Qed.

Lemma binary_round_sign s m e : SignF s (binary_round prec emax s m e).
Proof.
  unfold binary_round. destruct (shl_align _ _ _). apply binary_round_aux_sign.
Qed.

Lemma SFopp_sign s x : SignF s x -> SignF (negb s) (SFopp x).
Proof. destruct x; simpl; intros; subst; auto. Qed.

Lemma SignF_true_NonPosF x : SignF true x -> NonPosF x.
Proof. destruct x; simpl; auto. Qed.

(** *** int to float64 *)

Lemma of_uint63_spec_Z z : 0 <= z <= maxInt64 ->
  Prim2SF (of_uint63 (Uint63.of_Z z)) = binary_normalize prec emax z 0 false.
Proof.
  intros Hz. rewrite of_uint63_spec, Uint63.of_Z_spec.
  rewrite Z.mod_small; [reflexivity|]. unfold maxInt64 in Hz.
  change wB with (2 ^ 63). lia.
Qed.

Lemma ofInt64_zero : Prim2SF (ofInt64 0) = S754_zero false.
Proof. reflexivity. Qed.

Lemma ofInt64_pos z : 0 < z <= maxInt64 -> PosF 1 (Prim2SF (ofInt64 z)).
Proof.
  intros Hz. unfold ofInt64.
  replace (z =? minInt64) with false by (symmetry; apply Z.eqb_neq; unfold minInt64; lia).
  replace (z <? 0) with false by (symmetry; apply Z.ltb_ge; lia).
  rewrite of_uint63_spec_Z by lia.
  destruct z as [|p|p]; try lia. cbn [binary_normalize].
  assert (0 <= Z.log2 (Zpos p)) by apply Z.log2_nonneg.
  eapply PosF_weaken; [|apply binary_round_pos]; lia.
Qed.

Lemma ofInt64_ZeroOrPos z : 0 <= z <= maxInt64 -> ZeroOrPos 1 (Prim2SF (ofInt64 z)).
Proof.
  intros Hz. destruct (Z.eq_dec z 0) as [->|Hn].
  - left. apply ofInt64_zero.
  - right. apply ofInt64_pos. lia.
Qed.

Lemma ofInt64_neg z : minInt64 <= z < 0 -> NonPosF (Prim2SF (ofInt64 z)).
Proof.
  intros Hz. unfold ofInt64.
  destruct (z =? minInt64) eqn:E.
  - vm_compute. reflexivity.
  - apply Z.eqb_neq in E.
    replace (z <? 0) with true by (symmetry; apply Z.ltb_lt; lia).
    rewrite FloatAxioms.opp_spec, of_uint63_spec_Z by (unfold minInt64, maxInt64 in *; lia).
    apply SignF_true_NonPosF. apply (SFopp_sign false).
    destruct z as [|p|p]; try lia. cbn [Z.opp binary_normalize].
    apply binary_round_sign.
Qed.

Lemma ofInt64_nonpos z : minInt64 <= z <= 0 -> NonPosF (Prim2SF (ofInt64 z)).
Proof.
  intros Hz. destruct (Z.eq_dec z 0) as [->|Hn].
  - rewrite ofInt64_zero. exact I.
  - apply ofInt64_neg. lia.
Qed.

(** *** Addition *)

Lemma SFadd_finite_pos mx ex my ey : -1074 < Z.log2 (Zpos mx) + 1 + ex ->
  PosF (Z.log2 (Zpos mx) + 1 + ex)
       (SFadd prec emax (S754_finite false mx ex) (S754_finite false my ey)).
Proof.
  intros Hk. cbn [SFadd cond_Zopp].
  set (ez := Z.min ex ey).
  pose proof (shl_align_log2 mx ex ez) as Hx.
  rewrite shl_align_snd in Hx by (subst ez; lia).
  set (a := fst (shl_align mx ex ez)) in *.
  set (b := fst (shl_align my ey ez)).
  change (Zpos a + Zpos b) with (Zpos (a + b)). cbn [binary_normalize].
  assert (Hle : Z.log2 (Zpos a) <= Z.log2 (Zpos (a + b))) by (apply Z.log2_le_mono; lia).
  eapply PosF_weaken; [|apply binary_round_pos]; lia.
Qed.

Lemma SFadd_pos k x y : -1074 < k ->
  ZeroOrPos k x -> ZeroOrPos k y -> PosF k x \/ PosF k y ->
  PosF k (SFadd prec emax x y).
Proof.
  intros Hk Hx Hy Hxy.
  destruct Hx as [->|Hx]; destruct Hy as [->|Hy].
  - destruct Hxy as [H|H]; exact H.
  - destruct y as [[]|[]| |[] my ey]; try (exfalso; exact Hy); exact Hy.
  - destruct x as [[]|[]| |[] mx ex]; try (exfalso; exact Hx); exact Hx.
  - destruct x as [[]|[]| |[] mx ex]; try (exfalso; exact Hx);
      destruct y as [[]|[]| |[] my ey]; try (exfalso; exact Hy); try exact I.
    cbn [PosF] in Hx.
    eapply PosF_weaken; [|apply SFadd_finite_pos]; lia.
Qed.

Lemma SFadd_nonpos x y : NonPosF x -> NonPosF y -> NonPosF (SFadd prec emax x y).
Proof.
  intros Hx Hy.
  destruct x as [sx|sx| |sx mx ex]; destruct y as [sy|sy| |sy my ey];
    cbn [NonPosF] in *; subst; try exact I; try reflexivity.
  - cbn [SFadd]. destruct sx, sy; exact I.
  - cbn [SFadd cond_Zopp].
    apply SignF_true_NonPosF.
    change (- Zpos ?a + - Zpos ?b) with (Zneg (a + b)).
    cbn [binary_normalize]. apply binary_round_sign.
Qed.

(** *** Division by 1e9 *)

Lemma Prim2SF_1e9 : Prim2SF 1e9%float = sf1e9.
Proof. reflexivity. Qed.

Lemma SFdiv_1e9_nonpos x : NonPosF x -> NonPosF (SFdiv prec emax x sf1e9).
Proof.
  intros Hx. destruct x as [sx|sx| |sx mx ex]; cbn [NonPosF] in Hx; subst; try exact I.
  - reflexivity.
  - unfold sf1e9. cbn [SFdiv].
    destruct (SFdiv_core_binary _ _ _ _ _ _) as [[mz ez] lz].
    apply SignF_true_NonPosF. apply (binary_round_aux_sign true).
Qed.

(** A value of at least one, divided by 1e9, stays far above the underflow
    threshold: the quotient keeps at least 53 bits. *)
Lemma SFdiv_1e9_pos x : PosF 1 x -> PosF (-29) (SFdiv prec emax x sf1e9).
Proof.
  intros Hx. destruct x as [[]|[]| |[] mx ex]; try (exfalso; exact Hx).
  - exact I.
  - cbn [PosF] in Hx. unfold sf1e9. cbn [SFdiv xorb].
    unfold SFdiv_core_binary.
    change (Zdigits2 (Zpos 8388608000000000)) with 53.
    replace (Zdigits2 (Zpos mx)) with (Z.log2 (Zpos mx) + 1) by (symmetry; apply digits2_log2).
    set (L := Z.log2 (Zpos mx)) in *.
    rewrite fexp_eq.
    replace (Z.max (L + 1 + ex - (53 + -23) - 53) (-1074)) with (L + ex - 82) by lia.
    set (e' := Z.min (L + ex - 82) (ex - -23)).
    set (s := ex - -23 - e').
    assert (Hs : 105 - L <= s) by (subst s e'; lia).
    assert (HL : 0 <= L) by apply Z.log2_nonneg.
    set (m' := match s with
               | Z0 => Zpos mx
               | Zpos _ => Z.shiftl (Zpos mx) s
               | Zneg _ => 0
               end).
    assert (Hm' : m' = Zpos mx * 2 ^ s).
    { subst m'. destruct s as [|p|p] eqn:Es; try lia.
      rewrite Z.shiftl_mul_pow2 by lia. reflexivity. }
    assert (Hs0 : 0 <= s) by (subst s e'; lia).
    pose proof (Z.div_eucl_eq m' 8388608000000000 ltac:(lia)) as Hdiv.
    pose proof (Z.mod_pos_bound m' 8388608000000000 ltac:(lia)) as Hmod.
    unfold Z.modulo in Hmod.
    destruct (Z.div_eucl m' 8388608000000000) as [q r].
    destruct (Z.log2_spec (Zpos mx) ltac:(lia)) as [Hlo _]. fold L in Hlo.
    assert (Hpow : 2 ^ (L + s) <= m').
    { rewrite Hm', Z.pow_add_r by lia.
      apply Z.mul_le_mono_nonneg_r; [apply Z.pow_nonneg; lia | exact Hlo]. }
    assert (Hq : 2 ^ (L + s - 53) <= q).
    { assert (H53 : 2 ^ (L + s) = 2 ^ 53 * 2 ^ (L + s - 53))
        by (rewrite <- Z.pow_add_r by lia; f_equal; lia).
      assert (0 < 2 ^ (L + s - 53)) by (apply Z.pow_pos_nonneg; lia).
      change (2 ^ 53) with 9007199254740992 in H53. nia. }
    assert (Hqpos : 0 < q).
    { assert (0 < 2 ^ (L + s - 53)) by (apply Z.pow_pos_nonneg; lia). lia. }
    assert (Hlq : L + s - 53 <= Z.log2 q) by (apply Z.log2_le_pow2; assumption).
    eapply PosF_weaken; [|apply binary_round_aux_pos]; subst s; lia.
Qed.

(** *** Comparison with zero *)

Lemma Prim2SF_0 : Prim2SF 0%float = S754_zero false.
Proof. reflexivity. Qed.

Lemma PosF_gt0 k x : PosF k x -> SFltb (S754_zero false) x = true.
Proof.
  destruct x as [[]|[]| |[] m e]; simpl; intros H; try (exfalso; exact H); reflexivity.
Qed.

Lemma NonPosF_gt0 x : NonPosF x -> SFltb (S754_zero false) x = false.
Proof.
  destruct x as [[]|[]| |[] m e]; simpl; intros H; try discriminate H; reflexivity.
Qed.

Lemma lt0_ne0 x : lt0 x = true -> ne0 x = true.
Proof.
  unfold lt0, ne0. rewrite FloatAxioms.ltb_spec, FloatAxioms.eqb_spec.
  unfold SFltb, SFeqb.
  destruct (SFcompare (Prim2SF x) (Prim2SF 0)) as [[]|];
    intros H; try discriminate H; reflexivity.
Qed.

Lemma gt0_ne0 x : gt0 x = true -> ne0 x = true.
Proof.
  unfold gt0, ne0. rewrite FloatAxioms.ltb_spec, FloatAxioms.eqb_spec, Prim2SF_0.
  unfold SFltb, SFeqb.
  destruct (Prim2SF x) as [[]|[]| |[] m e]; simpl; intros H; try discriminate H; reflexivity.
Qed.

(** *** The sign of [d.Seconds()] *)

Lemma Seconds_spec d :
  Prim2SF (Seconds d) =
  SFadd prec emax (Prim2SF (ofInt64 (Z.quot d Second)))
        (SFdiv prec emax (Prim2SF (ofInt64 (Z.rem d Second))) sf1e9).
Proof.
  unfold Seconds. rewrite FloatAxioms.add_spec, FloatAxioms.div_spec, Prim2SF_1e9.
  reflexivity.
Qed.

(** A positive duration is a positive number of seconds. *)
Lemma Seconds_pos d : 0 < d <= maxDuration -> gt0 (Seconds d) = true.
Proof.
  unfold maxDuration. intros Hd.
  unfold gt0. rewrite FloatAxioms.ltb_spec, Prim2SF_0, Seconds_spec.
  assert (Hq : 0 <= Z.quot d Second <= maxInt64).
  { unfold Second. split; [apply Z.quot_pos; lia|].
    transitivity d; [|lia]. apply Z.quot_le_upper_bound; lia. }
  assert (Hr : 0 <= Z.rem d Second < Second) by (apply Z.rem_bound_pos; unfold Second; lia).
  assert (Hqr : d = Second * Z.quot d Second + Z.rem d Second) by apply Z.quot_rem'.
  apply (PosF_gt0 (-29)).
  assert (HA : ZeroOrPos (-29) (Prim2SF (ofInt64 (Z.quot d Second)))).
  { destruct (ofInt64_ZeroOrPos _ Hq) as [H|H]; [left; exact H|right].
    eapply PosF_weaken; [|exact H]. lia. }
  assert (HB : ZeroOrPos (-29)
                 (SFdiv prec emax (Prim2SF (ofInt64 (Z.rem d Second))) sf1e9)).
  { destruct (ofInt64_ZeroOrPos (Z.rem d Second)) as [H|H].
    - unfold maxInt64, Second in *. lia.
    - left. rewrite H. reflexivity.
    - right. apply SFdiv_1e9_pos. exact H. }
  apply SFadd_pos; [lia | exact HA | exact HB |].
  destruct (Z.eq_dec (Z.quot d Second) 0) as [E0|E0].
  - right. apply SFdiv_1e9_pos. apply ofInt64_pos.
    unfold maxInt64, Second in *. lia.
  - left. eapply PosF_weaken; [|apply ofInt64_pos]; lia.
Qed.

(** A zero or negative duration is not a positive number of seconds. *)
Lemma Seconds_nonpos d : minDuration <= d <= 0 -> gt0 (Seconds d) = false.
Proof.
  unfold minDuration. intros Hd.
  unfold gt0. rewrite FloatAxioms.ltb_spec, Prim2SF_0, Seconds_spec.
  assert (Hq : minInt64 <= Z.quot d Second <= 0).
  { rewrite <- (Z.opp_involutive d), Z.quot_opp_l by (unfold Second; lia).
    assert (0 <= Z.quot (- d) Second) by (apply Z.quot_pos; unfold Second; lia).
    assert (Z.quot (- d) Second <= - d)
      by (apply Z.quot_le_upper_bound; unfold Second; lia).
    lia. }
  assert (Hr : - Second < Z.rem d Second <= 0).
  { rewrite <- (Z.opp_involutive d), Z.rem_opp_l by (unfold Second; lia).
    pose proof (Z.rem_bound_pos (- d) Second ltac:(lia) ltac:(unfold Second; lia)) as H.
    lia. }
  apply NonPosF_gt0, SFadd_nonpos.
  - apply ofInt64_nonpos. exact Hq.
  - apply SFdiv_1e9_nonpos, ofInt64_nonpos. unfold minInt64, Second in *. lia.
Qed.

End F64Facts.

(** * Facts about time *)

Lemma wrap64_range z : minInt64 <= wrap64 z <= maxInt64.
Proof.
  unfold wrap64, minInt64, maxInt64.
  pose proof (Z.mod_pos_bound (z + 2 ^ 63) (2 ^ 64) ltac:(lia)). lia.
Qed.

Lemma wrap64_small z : minInt64 <= z <= maxInt64 -> wrap64 z = z.
Proof.
  unfold wrap64, minInt64, maxInt64. intros H.
  rewrite Z.mod_small by lia. lia.
Qed.

Lemma Now_not_zero u : Time_eqb (Now u) zeroTime = false.
Proof. unfold Time_eqb, Now. cbn [t_loc Location_eqb]. apply andb_false_r. Qed.

Lemma zeroTime_is_zero : Time_eqb zeroTime zeroTime = true.
Proof. reflexivity. Qed.

Lemma Sub_range t u : minDuration <= Sub t u <= maxDuration.
Proof.
  unfold Sub, minDuration, maxDuration.
  destruct (Z.ltb_spec (t_ns t - t_ns u) minInt64);
    [|destruct (Z.ltb_spec maxInt64 (t_ns t - t_ns u))];
    unfold minInt64, maxInt64 in *; lia.
Qed.

Lemma Sub_diag t : Sub t t = 0.
Proof. unfold Sub. rewrite Z.sub_diag. reflexivity. Qed.

Lemma Sub_Now_exact a b : minDuration <= a - b <= maxDuration ->
  Sub (Now a) (Now b) = a - b.
Proof.
  unfold Sub, Now, minDuration, maxDuration. cbn [t_ns]. intros H.
  replace (unixEpochNs + a - (unixEpochNs + b)) with (a - b) by lia.
  destruct (Z.ltb_spec (a - b) minInt64); [lia|].
  destruct (Z.ltb_spec maxInt64 (a - b)); [lia|]. reflexivity.
Qed.

(** A later clock reading is a positive duration away. *)
Lemma Sub_Now_pos a b : b < a -> 0 < Sub (Now a) (Now b) <= maxDuration.
Proof.
  intros H. split; [|apply Sub_range].
  unfold Sub, Now, minDuration, maxDuration. cbn [t_ns].
  replace (unixEpochNs + a - (unixEpochNs + b)) with (a - b) by lia.
  destruct (Z.ltb_spec (a - b) minInt64); [unfold minInt64 in *; lia|].
  destruct (Z.ltb_spec maxInt64 (a - b)); [reflexivity | lia].
Qed.

(** * Facts about the lag-trend update *)

(** Case analysis on every guard of the goal. *)
Ltac case_ifs :=
  repeat match goal with
         | |- context [if ?c then _ else _] => destruct c
         end.

Lemma updateLag_startTime st seconds now :
  startTime (updateLag st seconds now) = startTime (initStart st seconds now).
Proof.
  unfold updateLag, updateLagTraced, updateInstant, updateAverage.
  case_ifs; reflexivity.
Qed.

Lemma updateLag_startSecondsBehind st seconds now :
  startSecondsBehind (updateLag st seconds now)
  = startSecondsBehind (initStart st seconds now).
Proof.
  unfold updateLag, updateLagTraced, updateInstant, updateAverage.
  case_ifs; reflexivity.
Qed.

Lemma updateLag_last st seconds now :
  lastSecondsBehind (updateLag st seconds now) = seconds /\
  lastCheckTime (updateLag st seconds now) = now.
Proof.
  unfold updateLag, updateLagTraced, updateInstant, updateAverage.
  case_ifs;
    split; reflexivity.
Qed.

Lemma updateLag_ratePerSecond st seconds now :
  ratePerSecond (updateLag st seconds now)
  = ratePerSecond (fst (updateInstant (initStart st seconds now) seconds now)).
Proof.
  unfold updateLag, updateLagTraced, updateAverage.
  destruct (updateInstant (initStart st seconds now) seconds now) as [st2 ds1].
  destruct (F64.gt0 _); reflexivity.
Qed.

Lemma updateLag_estimatedTime st seconds now :
  estimatedTime (updateLag st seconds now)
  = estimatedTime (fst (updateInstant (initStart st seconds now) seconds now)).
Proof.
  unfold updateLag, updateLagTraced, updateAverage.
  destruct (updateInstant (initStart st seconds now) seconds now) as [st2 ds1].
  destruct (F64.gt0 _); reflexivity.
Qed.

Lemma updateInstant_keeps st seconds now :
  let st' := fst (updateInstant st seconds now) in
  startTime st' = startTime st /\ startSecondsBehind st' = startSecondsBehind st /\
  averageRatePerSecond st' = averageRatePerSecond st.
Proof.
  unfold updateInstant.
  case_ifs;
    repeat split; reflexivity.
Qed.

Lemma initStart_keeps st seconds now :
  let st' := initStart st seconds now in
  lastCheckTime st' = lastCheckTime st /\ lastSecondsBehind st' = lastSecondsBehind st /\
  ratePerSecond st' = ratePerSecond st /\ estimatedTime st' = estimatedTime st /\
  averageRatePerSecond st' = averageRatePerSecond st.
Proof.
  unfold initStart. destruct (Time_eqb _ _); repeat split; reflexivity.
Qed.

Lemma updateLag_averageRatePerSecond st seconds now :
  averageRatePerSecond (updateLag st seconds now)
  = averageRatePerSecond
      (fst (updateAverage (fst (updateInstant (initStart st seconds now) seconds now))
                          seconds now)).
Proof.
  unfold updateLag, updateLagTraced.
  destruct (updateInstant (initStart st seconds now) seconds now) as [st2 ds1].
  cbn [fst].
  destruct (updateAverage st2 seconds now) as [st3 ds2]. reflexivity.
Qed.

(** Once set, the anchor is kept by every update. *)
Lemma updateLag_start_kept st seconds now :
  Time_eqb (startTime st) zeroTime = false ->
  startTime (updateLag st seconds now) = startTime st /\
  startSecondsBehind (updateLag st seconds now) = startSecondsBehind st.
Proof.
  intros H. rewrite updateLag_startTime, updateLag_startSecondsBehind.
  unfold initStart. rewrite H. split; reflexivity.
Qed.

(** The state after the very first update. *)
Lemma first_update lag0 t0 :
  updateLag replicationStats0 lag0 (Now t0)
  = mkStats lag0 (Now t0) 0%float zeroTime lag0 (Now t0) 0%float 0%float.
Proof.
  cbv [updateLag updateLagTraced initStart updateInstant updateAverage
       replicationStats0 startTime lastCheckTime set_start zeroTime Time_eqb
       t_ns t_loc Location_eqb Z.eqb andb negb].
  rewrite Sub_diag.
  replace (F64.gt0 (Seconds 0)) with false by (vm_compute; reflexivity).
  reflexivity.
Qed.

(** From the first sample on, the anchor is the first sample. *)
Lemma runUpdates_anchor rest : forall st,
  Time_eqb (startTime st) zeroTime = false ->
  startTime (runUpdates st rest) = startTime st /\
  startSecondsBehind (runUpdates st rest) = startSecondsBehind st.
Proof.
  induction rest as [|s rest IH]; intros st H; [split; reflexivity|].
  change (runUpdates st (s :: rest)) with (runUpdates (updateSample st s) rest).
  destruct (updateLag_start_kept st (fst s) (Now (snd s)) H) as [H1 H2].
  fold (updateSample st s) in H1, H2.
  destruct (IH (updateSample st s)) as [H3 H4]; [rewrite H1; exact H|].
  rewrite H3, H4, H1, H2. split; reflexivity.
Qed.

Lemma runUpdates_first lag0 t0 rest :
  startTime (runUpdates replicationStats0 ((lag0, t0) :: rest)) = Now t0 /\
  startSecondsBehind (runUpdates replicationStats0 ((lag0, t0) :: rest)) = lag0.
Proof.
  change (runUpdates replicationStats0 ((lag0, t0) :: rest))
    with (runUpdates (updateLag replicationStats0 lag0 (Now t0)) rest).
  rewrite first_update.
  apply (runUpdates_anchor rest
           (mkStats lag0 (Now t0) 0%float zeroTime lag0 (Now t0) 0%float 0%float)).
  apply Now_not_zero.
Qed.

Lemma runUpdates_app st xs ys :
  runUpdates st (xs ++ ys) = runUpdates (runUpdates st xs) ys.
Proof. apply fold_left_app. Qed.

(** * The lag-trend estimator: the properties *)

(** C8: samples (100, t0) and (90, t0 + 10s) give an instant rate of -1.0 and
    an instant estimate of t0 + 100s. *)
Theorem C8_scenario_catching_up (t0 : Z) :
  let st := runUpdates replicationStats0 [(100, t0); (90, t0 + 10 * Second)] in
  ratePerSecond st = (-1)%float /\
  estimatedTime st = Now (t0 + 100 * Second).
Proof.
  cbv zeta.
  change (runUpdates replicationStats0 [(100, t0); (90, t0 + 10 * Second)])
    with (updateLag (updateLag replicationStats0 100 (Now t0)) 90 (Now (t0 + 10 * Second))).
  rewrite first_update.
  rewrite updateLag_ratePerSecond, updateLag_estimatedTime.
  unfold initStart. cbn [startTime]. rewrite Now_not_zero.
  unfold updateInstant. cbn [lastCheckTime lastSecondsBehind]. rewrite Now_not_zero.
  cbn [negb].
  rewrite Sub_Now_exact by (unfold minDuration, maxDuration, minInt64, maxInt64, Second; lia).
  replace (t0 + 10 * Second - t0) with 10000000000 by (unfold Second; lia).
  replace (F64.gt0 (Seconds 10000000000)) with true by (vm_compute; reflexivity).
  cbn [set_ratePerSecond ratePerSecond].
  replace (F64.ofInt64 (wrap64 (90 - 100)) / Seconds 10000000000%Z)%float
    with (-1)%float by (vm_compute; reflexivity).
  replace (F64.lt0 (-1)) with true by (vm_compute; reflexivity).
  cbn [fst set_estimatedTime ratePerSecond estimatedTime].
  split; [reflexivity|].
  replace (mulDuration (F64.truncToInt64 (F64.ofInt64 90 / - -1)) Second)
    with 90000000000 by (vm_compute; reflexivity).
  unfold Add, Now, Second. cbn [t_ns t_loc]. f_equal. lia.
Qed.

(** The long-term rate once the anchor is set and time has advanced. *)
Lemma updateLag_average_set st seconds now :
  Time_eqb (startTime st) zeroTime = false ->
  0 < Sub now (startTime st) ->
  averageRatePerSecond (updateLag st seconds now)
  = (F64.ofInt64 (wrap64 (seconds - startSecondsBehind st))
     / Seconds (Sub now (startTime st)))%float.
Proof.
  intros Hset Hpos. rewrite updateLag_averageRatePerSecond.
  assert (Hi : initStart st seconds now = st) by (unfold initStart; rewrite Hset; reflexivity).
  rewrite Hi.
  destruct (updateInstant_keeps st seconds now) as (H1 & H2 & H3).
  cbv zeta in H1, H2, H3.
  unfold updateAverage. rewrite H1, H2.
  rewrite F64Facts.Seconds_pos by (split; [exact Hpos | apply Sub_range]).
  reflexivity.
Qed.

Lemma increasingTime_first_last lag0 t0 mid lagk tk :
  increasingTime ((lag0, t0) :: mid ++ [(lagk, tk)]) -> t0 < tk.
Proof.
  unfold increasingTime. intros H.
  apply Sorted_StronglySorted in H; [|intros x y z; apply Z.lt_trans].
  cbn [map snd] in H. apply StronglySorted_inv in H. destruct H as [_ H].
  rewrite Forall_forall in H. apply H.
  rewrite map_app. apply in_or_app. right. left. reflexivity.
Qed.

Lemma average_after_anchor st lag0 t0 lagk tk :
  startTime st = Now t0 -> startSecondsBehind st = lag0 -> t0 < tk ->
  averageRatePerSecond (runUpdates st [(lagk, tk)])
  = (F64.ofInt64 (wrap64 (lagk - lag0)) / Seconds (Sub (Now tk) (Now t0)))%float.
Proof.
  intros Ht Hs Hlt.
  change (runUpdates st [(lagk, tk)]) with (updateLag st lagk (Now tk)).
  rewrite updateLag_average_set.
  - rewrite Ht, Hs. reflexivity.
  - rewrite Ht. apply Now_not_zero.
  - rewrite Ht. apply Sub_Now_pos. exact Hlt.
Qed.

(** C2: along samples with strictly increasing time, after every sample
    beyond the first the average rate is the lag difference to the first
    sample ([int] subtraction, converted to float64) divided by the seconds
    elapsed since the first sample ([Time.Sub] and [Duration.Seconds]). *)
Theorem C2_average_rate_since_first_sample
  (lag0 t0 : Z) (mid : list Sample) (lagk tk : Z) :
  increasingTime ((lag0, t0) :: mid ++ [(lagk, tk)]) ->
  averageRatePerSecond (runUpdates replicationStats0 ((lag0, t0) :: mid ++ [(lagk, tk)]))
  = (F64.ofInt64 (wrap64 (lagk - lag0)) / Seconds (Sub (Now tk) (Now t0)))%float.
Proof.
  intros Hinc. pose proof (increasingTime_first_last _ _ _ _ _ Hinc) as Hlt.
  rewrite app_comm_cons, runUpdates_app.
  destruct (runUpdates_first lag0 t0 mid) as [Ht Hs].
  apply average_after_anchor; [exact Ht | exact Hs | exact Hlt].
Qed.

(** With lags that are non-negative [int]s and less than 292 years between
    the first and the current sample, neither the subtraction wraps nor
    the duration saturates. *)
Lemma average_rate_exact (lag0 t0 : Z) (mid : list Sample) (lagk tk : Z) :
  increasingTime ((lag0, t0) :: mid ++ [(lagk, tk)]) ->
  0 <= lag0 <= maxInt64 -> 0 <= lagk <= maxInt64 -> tk - t0 <= maxDuration ->
  averageRatePerSecond (runUpdates replicationStats0 ((lag0, t0) :: mid ++ [(lagk, tk)]))
  = (F64.ofInt64 (lagk - lag0)%Z / Seconds (tk - t0)%Z)%float.
Proof.
  intros Hinc H0 Hk Hd.
  pose proof (increasingTime_first_last _ _ _ _ _ Hinc) as Hlt.
  rewrite app_comm_cons, runUpdates_app.
  destruct (runUpdates_first lag0 t0 mid) as [Ht Hs].
  transitivity (F64.ofInt64 (wrap64 (lagk - lag0))
                / Seconds (Sub (Now tk) (Now t0)))%float.
  - apply average_after_anchor; assumption.
  - rewrite wrap64_small by (unfold minInt64, maxInt64 in *; lia).
    rewrite Sub_Now_exact
      by (unfold minDuration, maxDuration, minInt64, maxInt64 in *; lia).
    reflexivity.
Qed.

(** Every interval the short-term step divides by passed its [> 0] guard. *)
Lemma updateInstant_divisors st seconds now :
  Forall (fun dt => F64.gt0 dt = true /\ F64.ne0 dt = true)
         (snd (updateInstant st seconds now)).
Proof.
  unfold updateInstant.
  destruct (negb (Time_eqb (lastCheckTime st) zeroTime)); [|constructor].
  destruct (F64.gt0 (Seconds (Sub now (lastCheckTime st)))) eqn:Hgt; [|constructor].
  destruct (F64.lt0 _); cbn [snd]; repeat constructor;
    auto using F64Facts.gt0_ne0.
Qed.

Lemma updateAverage_divisors st seconds now :
  Forall (fun dt => F64.gt0 dt = true /\ F64.ne0 dt = true)
         (snd (updateAverage st seconds now)).
Proof.
  unfold updateAverage.
  destruct (F64.gt0 (Seconds (Sub now (startTime st)))) eqn:Hgt; [|constructor].
  cbn [snd]. repeat constructor; auto using F64Facts.gt0_ne0.
Qed.

(** C3: an update whose elapsed time since the previous sample is zero or
    negative (or that has no previous sample) keeps [ratePerSecond]; one whose
    elapsed time since the anchor is zero or negative keeps
    [averageRatePerSecond]; and every time interval an update divides by is
    strictly positive, hence not zero. *)
Theorem C3_rates_kept_without_elapsed_time
  (st : ReplicationStats) (seconds : Z) (now : Time) :
  (Sub now (lastCheckTime st) <= 0 ->
   ratePerSecond (updateLag st seconds now) = ratePerSecond st) /\
  (Time_eqb (lastCheckTime st) zeroTime = true ->
   ratePerSecond (updateLag st seconds now) = ratePerSecond st) /\
  (Sub now (startTime (initStart st seconds now)) <= 0 ->
   averageRatePerSecond (updateLag st seconds now) = averageRatePerSecond st) /\
  Forall (fun dt => F64.gt0 dt = true /\ F64.ne0 dt = true)
         (updateLagDivisors st seconds now).
Proof.
  destruct (initStart_keeps st seconds now) as (Hc & _ & Hr & _ & Ha).
  cbv zeta in Hc, Hr, Ha.
  repeat split.
  - intros Hle. rewrite updateLag_ratePerSecond. unfold updateInstant.
    rewrite Hc.
    rewrite F64Facts.Seconds_nonpos by (split; [apply Sub_range | exact Hle]).
    destruct (negb _); exact Hr.
  - intros Hz. rewrite updateLag_ratePerSecond. unfold updateInstant.
    rewrite Hc, Hz. exact Hr.
  - intros Hle. rewrite updateLag_averageRatePerSecond.
    destruct (updateInstant_keeps (initStart st seconds now) seconds now)
      as (Hs & _ & Hav).
    cbv zeta in Hs, Hav.
    unfold updateAverage. rewrite Hs.
    rewrite F64Facts.Seconds_nonpos by (split; [apply Sub_range | exact Hle]).
    cbn [fst]. rewrite Hav. exact Ha.
  - unfold updateLagDivisors, updateLagTraced.
    pose proof (updateInstant_divisors (initStart st seconds now) seconds now) as H1.
    destruct (updateInstant (initStart st seconds now) seconds now) as [st2 ds1].
    pose proof (updateAverage_divisors st2 seconds now) as H2.
    destruct (updateAverage st2 seconds now) as [st3 ds2].
    cbn [snd] in *. apply Forall_app. split; assumption.
Qed.

(** Two calls at the same instant: the second keeps both rates. *)
Lemma C3_witness :
  let st := updateLag (updateLag replicationStats0 100 (Now 0)) 90 (Now (10 * Second)) in
  Sub (Now (10 * Second)) (lastCheckTime st) <= 0 /\
  ratePerSecond (updateLag st 50 (Now (10 * Second))) = ratePerSecond st.
Proof.
  cbv zeta. split.
  - apply Z.leb_le. vm_compute. reflexivity.
  - apply (proj1 (C3_rates_kept_without_elapsed_time
             (updateLag (updateLag replicationStats0 100 (Now 0)) 90 (Now (10 * Second)))
             50 (Now (10 * Second)))).
    apply Z.leb_le. vm_compute. reflexivity.
Defined.

Lemma Add_Now_not_zero u d : 0 <= u -> minInt64 <= d -> IsZero (Add (Now u) d) = false.
Proof.
  intros Hu Hd. unfold IsZero, Add, Now. cbn [t_ns].
  apply Z.eqb_neq. unfold unixEpochNs, minInt64 in *. lia.
Qed.

Lemma updateInstant_etaInv st seconds u :
  0 <= u -> etaInv st -> etaInv (fst (updateInstant st seconds (Now u))).
Proof.
  intros Hu Hinv. unfold updateInstant.
  destruct (negb (Time_eqb (lastCheckTime st) zeroTime)); [|exact Hinv].
  destruct (F64.gt0 _); [|exact Hinv].
  destruct (F64.lt0 (ratePerSecond (set_ratePerSecond st _))) eqn:Hlt; cbn [fst].
  - intros _. cbn [estimatedTime set_estimatedTime].
    apply Add_Now_not_zero; [exact Hu | apply wrap64_range].
  - intros H. rewrite Hlt in H. discriminate H.
Qed.

Lemma updateLag_etaInv st seconds u :
  0 <= u -> etaInv st -> etaInv (updateLag st seconds (Now u)).
Proof.
  intros Hu Hinv. unfold etaInv.
  rewrite updateLag_ratePerSecond, updateLag_estimatedTime.
  apply updateInstant_etaInv; [exact Hu|].
  destruct (initStart_keeps st seconds (Now u)) as (_ & _ & Hr & He & _).
  cbv zeta in Hr, He. unfold etaInv. rewrite Hr, He. exact Hinv.
Qed.

Lemma runUpdates_etaInv samples : forall st,
  clockAfterEpoch samples -> etaInv st -> etaInv (runUpdates st samples).
Proof.
  induction samples as [|s samples IH]; intros st Hc Hinv; [exact Hinv|].
  change (runUpdates st (s :: samples)) with (runUpdates (updateSample st s) samples).
  inversion Hc as [|? ? Hs Hrest]; subst.
  apply IH; [exact Hrest|]. apply updateLag_etaInv; assumption.
Qed.

(** A call that leaves the rate not negative leaves [estimatedTime] as it
    was: lines 195-198 are the only assignment to it. *)
Lemma updateInstant_eta_kept st seconds now :
  F64.lt0 (ratePerSecond (fst (updateInstant st seconds now))) = false ->
  estimatedTime (fst (updateInstant st seconds now)) = estimatedTime st.
Proof.
  unfold updateInstant.
  destruct (negb (Time_eqb (lastCheckTime st) zeroTime)); [|reflexivity].
  destruct (F64.gt0 _); [|reflexivity].
  destruct (F64.lt0 (ratePerSecond (set_ratePerSecond st _))) eqn:Hlt; cbn [fst].
  - intros H. exfalso. unfold set_estimatedTime in H. cbn [ratePerSecond] in H.
    rewrite Hlt in H. discriminate H.
  - reflexivity.
Qed.

Lemma updateLag_eta_kept st seconds now :
  F64.lt0 (ratePerSecond (updateLag st seconds now)) = false ->
  estimatedTime (updateLag st seconds now) = estimatedTime st.
Proof.
  rewrite updateLag_ratePerSecond, updateLag_estimatedTime. intros H.
  rewrite (updateInstant_eta_kept _ _ _ H).
  exact (proj1 (proj2 (proj2 (proj2 (initStart_keeps st seconds now))))).
Qed.

(** Along calls that each leave the rate not negative, [estimatedTime] keeps
    the value it had before them. *)
Lemma runUpdates_eta_kept st0 pre post :
  (forall q r, post = q ++ r -> q <> [] ->
     F64.lt0 (ratePerSecond (runUpdates st0 (pre ++ q))) = false) ->
  estimatedTime (runUpdates st0 (pre ++ post)) = estimatedTime (runUpdates st0 pre).
Proof.
  induction post as [|s post IH] using rev_ind; intros H.
  - rewrite app_nil_r. reflexivity.
  - rewrite app_assoc, runUpdates_app.
    change (runUpdates (runUpdates st0 (pre ++ post)) [s])
      with (updateLag (runUpdates st0 (pre ++ post)) (fst s) (Now (snd s))).
    rewrite updateLag_eta_kept.
    + apply IH. intros q r Hq Hne. apply (H q (r ++ [s])); [|exact Hne].
      rewrite Hq, app_assoc. reflexivity.
    + change (updateLag (runUpdates st0 (pre ++ post)) (fst s) (Now (snd s)))
        with (runUpdates (runUpdates st0 (pre ++ post)) [s]).
      rewrite <- runUpdates_app, <- app_assoc.
      apply (H (post ++ [s]) []); [rewrite app_nil_r; reflexivity|].
      destruct post; discriminate.
Qed.

(** No call clears [estimatedTime]. *)
Lemma updateLag_eta_not_cleared st seconds u :
  0 <= u -> IsZero (estimatedTime st) = false ->
  IsZero (estimatedTime (updateLag st seconds (Now u))) = false.
Proof.
  intros Hu Hset. rewrite updateLag_estimatedTime.
  assert (He : estimatedTime (initStart st seconds (Now u)) = estimatedTime st)
    by exact (proj1 (proj2 (proj2 (proj2 (initStart_keeps st seconds (Now u)))))).
  revert He. generalize (initStart st seconds (Now u)). intros st1 He.
  unfold updateInstant.
  destruct (negb (Time_eqb (lastCheckTime st1) zeroTime)); cbn [fst];
    [|rewrite He; exact Hset].
  destruct (F64.gt0 _); cbn [fst]; [|rewrite He; exact Hset].
  destruct (F64.lt0 (ratePerSecond (set_ratePerSecond st1 _))); cbn [fst].
  - cbn [estimatedTime set_estimatedTime].
    apply Add_Now_not_zero; [exact Hu | apply wrap64_range].
  - cbn [estimatedTime set_ratePerSecond]. rewrite He. exact Hset.
Qed.

Lemma runUpdates_eta_not_cleared post : forall st,
  clockAfterEpoch post -> IsZero (estimatedTime st) = false ->
  IsZero (estimatedTime (runUpdates st post)) = false.
Proof.
  induction post as [|s post IH]; intros st Hc Hset; [exact Hset|].
  change (runUpdates st (s :: post)) with (runUpdates (updateSample st s) post).
  inversion Hc as [|? ? Hs Hrest]; subst.
  apply IH; [exact Hrest|]. apply updateLag_eta_not_cleared; assumption.
Qed.

(** C1, as the code has it: after every sequence of update calls (the clock
    never before the Unix epoch), a negative [ratePerSecond] comes with a set
    [estimatedTime], and the report prints an instant ETA exactly when
    [ratePerSecond] is negative.  The field itself is not cleared when the
    rate is zero or positive: through calls that each leave the rate not
    negative it keeps the value it had after the last call before them, and
    once set it stays set. *)
Theorem C1_eta_set_and_reported_when_rate_negative (samples : list Sample) :
  clockAfterEpoch samples ->
  let st := runUpdates replicationStats0 samples in
  (F64.lt0 (ratePerSecond st) = true -> IsZero (estimatedTime st) = false) /\
  (forall now,
     (exists eta t, In (OutInstantETA eta t) (instantLines st now))
     <-> F64.lt0 (ratePerSecond st) = true) /\
  (forall pre post,
     samples = pre ++ post ->
     (forall q r, post = q ++ r -> q <> [] ->
        F64.lt0 (ratePerSecond (runUpdates replicationStats0 (pre ++ q))) = false) ->
     estimatedTime st = estimatedTime (runUpdates replicationStats0 pre)) /\
  (forall pre post,
     samples = pre ++ post ->
     IsZero (estimatedTime (runUpdates replicationStats0 pre)) = false ->
     IsZero (estimatedTime st) = false).
Proof.
  intros Hc st.
  assert (Hinv : etaInv st).
  { apply runUpdates_etaInv; [exact Hc|]. intros H. vm_compute in H. discriminate H. }
  split; [exact Hinv|]. split; [|split].
  - intros now. unfold instantLines. split.
    + intros (eta & t & Hin).
      destruct (F64.ne0 (ratePerSecond st)); [|destruct Hin].
      destruct (F64.lt0 (ratePerSecond st)); [reflexivity|].
      destruct Hin as [Hin|[]]. discriminate Hin.
    + intros Hlt. rewrite (F64Facts.lt0_ne0 _ Hlt), Hlt, (Hinv Hlt). cbn [negb].
      exists (Sub (estimatedTime st) now), (estimatedTime st). right. left. reflexivity.
  - intros pre post Hs Hrates. unfold st. rewrite Hs.
    apply runUpdates_eta_kept. exact Hrates.
  - intros pre post Hs Hset. unfold st. rewrite Hs, runUpdates_app.
    apply runUpdates_eta_not_cleared; [|exact Hset].
    unfold clockAfterEpoch in *. rewrite Hs in Hc.
    apply Forall_app in Hc. exact (proj2 Hc).
Qed.

(** Two runs: after (100, 0s), (90, 10s) the rate is negative and the
    estimate is set; the third call (100, 20s) leaves the rate not negative
    and the estimate is the one the second call left. *)
Lemma C1_witness :
  let two := [(100, 0); (90, 10 * Second)] in
  let three := two ++ [(100, 20 * Second)] in
  (clockAfterEpoch two /\
   F64.lt0 (ratePerSecond (runUpdates replicationStats0 two)) = true /\
   IsZero (estimatedTime (runUpdates replicationStats0 two)) = false) /\
  (clockAfterEpoch three /\
   F64.lt0 (ratePerSecond (runUpdates replicationStats0 three)) = false /\
   estimatedTime (runUpdates replicationStats0 three)
   = estimatedTime (runUpdates replicationStats0 two)).
Proof.
  cbv zeta.
  assert (Hc : clockAfterEpoch [(100, 0); (90, 10 * Second)]).
  { repeat constructor; cbn [snd]; unfold Second; lia. }
  assert (Hc3 : clockAfterEpoch ([(100, 0); (90, 10 * Second)] ++ [(100, 20 * Second)])).
  { repeat constructor; cbn [snd]; unfold Second; lia. }
  split.
  - split; [exact Hc|]. split; [vm_compute; reflexivity|].
    apply (proj1 (C1_eta_set_and_reported_when_rate_negative _ Hc)).
    vm_compute. reflexivity.
  - split; [exact Hc3|]. split; [vm_compute; reflexivity|].
    apply (proj1 (proj2 (proj2 (C1_eta_set_and_reported_when_rate_negative _ Hc3)))
             [(100, 0); (90, 10 * Second)] [(100, 20 * Second)] eq_refl).
    intros q r Hq Hne.
    destruct q as [|s q]; [exfalso; apply Hne; reflexivity|].
    destruct q as [|s' q]; [|destruct q; discriminate Hq].
    injection Hq as <- _. vm_compute. reflexivity.
Defined.

(** C1 as stated fails: after (100, 0s), (90, 10s), (100, 20s) the instant
    rate is +1.0, not negative, and [estimatedTime] still holds the estimate
    of the second call. *)
Lemma C1_counterexample :
  let st := runUpdates replicationStats0
              [(100, 0); (90, 10 * Second); (100, 20 * Second)] in
  ratePerSecond st = 1%float /\
  F64.lt0 (ratePerSecond st) = false /\
  IsZero (estimatedTime st) = false /\
  estimatedTime st = Now (100 * Second).
Proof. cbv zeta. repeat split; vm_compute; reflexivity. Qed.

Lemma C2_witness :
  increasingTime [(100, 0); (95, 5 * Second); (90, 10 * Second)] /\
  averageRatePerSecond
    (runUpdates replicationStats0 [(100, 0); (95, 5 * Second); (90, 10 * Second)])
  = (-1)%float.
Proof.
  assert (Hinc : increasingTime ((100, 0) :: [(95, 5 * Second)] ++ [(90, 10 * Second)])).
  { unfold increasingTime. cbn [map snd app]. repeat constructor. }
  split; [exact Hinc|].
  etransitivity;
    [exact (C2_average_rate_since_first_sample
              100 0 [(95, 5 * Second)] 90 (10 * Second) Hinc)|].
  vm_compute. reflexivity.
Defined.

(** * The polling cycle and the loop: the properties *)

Section MonitorFacts.

Variable Sscanf_d : string -> option Z.
Variable MatchString : string -> string -> bool * option error.

Lemma showLag_lastSQLError c field strVal now :
  lastSQLError (showLag Sscanf_d c field strVal now) = lastSQLError c.
Proof.
  unfold showLag. destruct (negb _ && negb _); [|reflexivity].
  destruct (Sscanf_d strVal); reflexivity.
Qed.

(** Only the [Seconds_Behind_Source] field touches the lag state. *)
Lemma showField_stats_other row now c field :
  String.eqb field "Seconds_Behind_Source" = false ->
  stats (showField Sscanf_d row now c field) = stats c.
Proof.
  intros H. unfold showField. rewrite H.
  destruct (findColumn field row) as [val|]; [|reflexivity].
  destruct (strValOf val); [|reflexivity].
  destruct (String.eqb field "Last_SQL_Error"); reflexivity.
Qed.

(** Only the [Last_SQL_Error] field touches [lastSQLError]. *)
Lemma showField_lastSQLError_other row now c field :
  String.eqb field "Last_SQL_Error" = false ->
  lastSQLError (showField Sscanf_d row now c field) = lastSQLError c.
Proof.
  intros H. unfold showField. rewrite H.
  destruct (findColumn field row) as [val|]; [|reflexivity].
  destruct (strValOf val); [|reflexivity].
  destruct (String.eqb field "Seconds_Behind_Source"); [|reflexivity].
  apply showLag_lastSQLError.
Qed.

Lemma showField_lag_stats row now c :
  stats (showField Sscanf_d row now c "Seconds_Behind_Source")
  = match lagSample Sscanf_d row with
    | Some seconds => updateLag (stats c) seconds now
    | None => stats c
    end.
Proof.
  unfold showField, lagSample.
  destruct (findColumn "Seconds_Behind_Source" row) as [val|]; [|reflexivity].
  destruct (strValOf val) as [strVal|]; [|reflexivity].
  cbn [String.eqb Ascii.eqb Bool.eqb]. unfold showLag.
  destruct (negb _ && negb _); [|reflexivity].
  destruct (Sscanf_d strVal); reflexivity.
Qed.

Lemma showField_error_text row now c :
  lastSQLError c = EmptyString ->
  lastSQLError (showField Sscanf_d row now c "Last_SQL_Error") = lastSQLErrorOf row.
Proof.
  intros Hc. unfold showField, lastSQLErrorOf.
  destruct (findColumn "Last_SQL_Error" row) as [val|]; [|exact Hc].
  destruct (strValOf val) as [strVal|]; [|exact Hc].
  reflexivity.
Qed.

(** What the loop over [keyFields] leaves in the lag state and in
    [lastSQLError]. *)
Lemma keyFields_loop row now st out :
  let c := fold_left (showField Sscanf_d row now) keyFields (mkCycle st EmptyString out) in
  stats c = match lagSample Sscanf_d row with
            | Some seconds => updateLag st seconds now
            | None => st
            end /\
  lastSQLError c = lastSQLErrorOf row.
Proof.
  unfold keyFields. cbn [fold_left]. split.
  - rewrite showField_lag_stats.
    rewrite !showField_stats_other by reflexivity. reflexivity.
  - rewrite showField_lastSQLError_other by reflexivity.
    rewrite showField_error_text; [reflexivity|].
    rewrite !showField_lastSQLError_other by reflexivity. reflexivity.
Qed.

Lemma showReplicaStatus_stats st unixNano q :
  fst (fst (showReplicaStatus Sscanf_d MatchString st unixNano q))
  = match q with
    | Scanned row =>
        match lagSample Sscanf_d row with
        | Some seconds => updateLag st seconds (Now unixNano)
        | None => st
        end
    | _ => st
    end.
Proof.
  destruct q as [e|e| |e|row]; try reflexivity.
  unfold showReplicaStatus.
  destruct (keyFields_loop row (Now unixNano) st [OutHeader; OutRule]) as [H _].
  cbv zeta in H.
  destruct (checkErrorPatterns _ _ _) as [h out]. cbn [fst]. exact H.
Qed.

Lemma showReplicaStatus_hasError st unixNano q :
  snd (fst (showReplicaStatus Sscanf_d MatchString st unixNano q))
  = match q with
    | Scanned row => fst (checkErrorPatterns MatchString errorPatterns (lastSQLErrorOf row))
    | _ => false
    end.
Proof.
  destruct q as [e|e| |e|row]; try reflexivity.
  unfold showReplicaStatus.
  destruct (keyFields_loop row (Now unixNano) st [OutHeader; OutRule]) as [_ H].
  cbv zeta in H. rewrite H.
  destruct (checkErrorPatterns _ _ _) as [h out]. reflexivity.
Qed.

(** The loop over the patterns: [hasError] becomes true at the first pattern
    that matches without error and is never reset. *)
Lemma matchPatterns_fst patterns s : forall h,
  fst (matchPatterns MatchString patterns s h)
  = (h || existsb (patternMatches MatchString s) patterns)%bool.
Proof.
  induction patterns as [|p ps IH]; intros h; cbn [matchPatterns existsb].
  - rewrite orb_false_r. reflexivity.
  - unfold patternMatches at 1.
    destruct (MatchString p s) as [matched [e|]].
    + specialize (IH h). destruct (matchPatterns MatchString ps s h) as [h' out].
      cbn [fst] in *. rewrite IH. reflexivity.
    + destruct matched.
      * specialize (IH true). destruct (matchPatterns MatchString ps s true) as [h' out].
        cbn [fst] in *. rewrite IH. rewrite orb_true_r. reflexivity.
      * rewrite IH. reflexivity.
Qed.

Lemma matchPatterns_logs patterns s pattern matched e : forall h,
  In pattern patterns -> MatchString pattern s = (matched, Some e) ->
  In (LogRegexError pattern e) (snd (matchPatterns MatchString patterns s h)).
Proof.
  induction patterns as [|p ps IH]; intros h Hin Hm; [destruct Hin|].
  cbn [matchPatterns].
  destruct Hin as [->|Hin].
  - rewrite Hm. destruct (matchPatterns MatchString ps s h) as [h' out].
    left. reflexivity.
  - destruct (MatchString p s) as [m [e'|]].
    + specialize (IH h Hin Hm). destruct (matchPatterns MatchString ps s h) as [h' out].
      right. exact IH.
    + destruct m.
      * specialize (IH true Hin Hm).
        destruct (matchPatterns MatchString ps s true) as [h' out].
        right. exact IH.
      * apply IH; assumption.
Qed.

Lemma filter_isExec_out out : filter isExec (map EvOut out) = [].
Proof. induction out as [|l out IH]; [reflexivity|exact IH]. Qed.

Lemma filter_isSleep_out out : filter isSleep (map EvOut out) = [].
Proof. induction out as [|l out IH]; [reflexivity|exact IH]. Qed.

Lemma mainLoop_cons st env rest :
  snd (mainLoop Sscanf_d MatchString st (env :: rest))
  = snd (iteration Sscanf_d MatchString st env)
    ++ snd (mainLoop Sscanf_d MatchString
              (fst (iteration Sscanf_d MatchString st env)) rest).
Proof.
  cbn [mainLoop]. destruct (iteration Sscanf_d MatchString st env) as [st1 evs].
  cbn [fst snd]. destruct (mainLoop Sscanf_d MatchString st1 rest). reflexivity.
Qed.

(** Every iteration starts by querying the database. *)
Lemma iteration_starts_with_query st env :
  exists tl, snd (iteration Sscanf_d MatchString st env) = EvQuery :: tl.
Proof.
  unfold iteration.
  destruct (showReplicaStatus Sscanf_d MatchString st (clock env) (query env))
    as [[st' h] out].
  eexists. reflexivity.
Qed.

(** C4: in a cycle whose status matched an error pattern, the recovery
    command is executed exactly once, the loop does not sleep, and whatever
    the command returns the next thing the loop does is the next query. *)
Theorem C4_recovery_once_then_immediate_poll
  (st : ReplicationStats) (env : CycleEnv) (rest : list CycleEnv) :
  snd (fst (showReplicaStatus Sscanf_d MatchString st (clock env) (query env))) = true ->
  let evs := snd (iteration Sscanf_d MatchString st env) in
  let st' := fst (iteration Sscanf_d MatchString st env) in
  execCount evs = 1%nat /\
  sleepCount evs = 0%nat /\
  (exists pre,
     evs = pre ++ [EvExec;
                   EvOut (match execErr env with
                          | Some e => LogExecError e
                          | None => OutExecSuccess
                          end)]) /\
  snd (mainLoop Sscanf_d MatchString st (env :: rest))
  = evs ++ snd (mainLoop Sscanf_d MatchString st' rest) /\
  (forall env' rest', rest = env' :: rest' ->
     exists tl, snd (mainLoop Sscanf_d MatchString st' rest) = EvQuery :: tl).
Proof.
  intros Hm evs st'. subst evs st'.
  repeat split.
  - unfold iteration, execCount.
    destruct (showReplicaStatus Sscanf_d MatchString st (clock env) (query env))
      as [[st1 h] out].
    cbn [fst snd] in Hm. subst h. cbn [snd filter isExec].
    rewrite filter_app, filter_isExec_out. reflexivity.
  - unfold iteration, sleepCount.
    destruct (showReplicaStatus Sscanf_d MatchString st (clock env) (query env))
      as [[st1 h] out].
    cbn [fst snd] in Hm. subst h. cbn [snd filter isSleep].
    rewrite filter_app, filter_isSleep_out. reflexivity.
  - unfold iteration.
    destruct (showReplicaStatus Sscanf_d MatchString st (clock env) (query env))
      as [[st1 h] out].
    cbn [fst snd] in Hm. subst h. cbn [snd]. unfold recover.
    exists (EvQuery :: map EvOut out ++ [EvOut OutWarning; EvOut OutExecuting]).
    cbn [app]. rewrite <- app_assoc. reflexivity.
  - apply mainLoop_cons.
  - intros env' rest' ->. rewrite mainLoop_cons.
    destruct (iteration_starts_with_query
                (fst (iteration Sscanf_d MatchString st env)) env') as [tl Htl].
    rewrite Htl. eexists. reflexivity.
Qed.

(** C5: when the query fails or returns no row (and likewise when reading
    the columns or scanning the row fails), the cycle logs one line, reports
    no error, leaves the lag state alone, does not execute the recovery
    command and sleeps for the polling interval. *)
Theorem C5_fetch_failure_or_no_row_sleeps (st : ReplicationStats) (env : CycleEnv) :
  (exists e, query env = QueryFailed e) \/ query env = NoRows \/
  (exists e, query env = ColumnsFailed e) \/ (exists e, query env = ScanFailed e) ->
  exists line,
    ((exists e, query env = QueryFailed e /\ line = LogQueryError e) \/
     (query env = NoRows /\ line = OutNoReplicaStatus) \/
     (exists e, query env = ColumnsFailed e /\ line = LogColumnsError e) \/
     (exists e, query env = ScanFailed e /\ line = LogScanError e)) /\
    showReplicaStatus Sscanf_d MatchString st (clock env) (query env)
    = (st, false, [line]) /\
    iteration Sscanf_d MatchString st env
    = (st, [EvQuery; EvOut line; EvSleep (5 * Second)]) /\
    execCount (snd (iteration Sscanf_d MatchString st env)) = 0%nat.
Proof.
  intros [[e Hq]|[Hq|[[e Hq]|[e Hq]]]].
  - exists (LogQueryError e). unfold iteration. rewrite Hq. cbn.
    repeat split; try reflexivity. left. exists e. split; reflexivity.
  - exists OutNoReplicaStatus. unfold iteration. rewrite Hq. cbn.
    repeat split; try reflexivity. right. left. split; reflexivity.
  - exists (LogColumnsError e). unfold iteration. rewrite Hq. cbn.
    repeat split; try reflexivity. right. right. left. exists e. split; reflexivity.
  - exists (LogScanError e). unfold iteration. rewrite Hq. cbn.
    repeat split; try reflexivity. right. right. right. exists e. split; reflexivity.
Qed.

(** C6: an empty [lastSQLError] (also when the column is absent or NULL)
    matches under no pattern list.  Under the default list the matcher's
    answer for a text is [false] when the text is empty and otherwise the
    answer of [regexp.MatchString] for the pattern ["Coordinator stopped"]
    and that text, an error counting as no match; so, [regexp.MatchString]
    finding that pattern in ["Coordinator stopped unexpectedly"], the matcher
    returns [true] there. *)
Theorem C6_error_matcher_examples :
  (forall patterns, checkErrorPatterns MatchString patterns EmptyString = (false, [])) /\
  (forall st unixNano row,
     findColumn "Last_SQL_Error" row = None \/
     findColumn "Last_SQL_Error" row = Some VNil ->
     snd (fst (showReplicaStatus Sscanf_d MatchString st unixNano (Scanned row))) = false) /\
  (forall s,
     fst (checkErrorPatterns MatchString errorPatterns s)
     = (negb (String.eqb s EmptyString)
        && patternMatches MatchString s "Coordinator stopped")%bool) /\
  (MatchString "Coordinator stopped" "Coordinator stopped unexpectedly" = (true, None) ->
   fst (checkErrorPatterns MatchString errorPatterns "Coordinator stopped unexpectedly")
   = true).
Proof.
  assert (Hdefault : forall s,
            fst (checkErrorPatterns MatchString errorPatterns s)
            = (negb (String.eqb s EmptyString)
               && patternMatches MatchString s "Coordinator stopped")%bool).
  { intros s. unfold checkErrorPatterns, errorPatterns, patternMatches.
    destruct (String.eqb s EmptyString); [reflexivity|].
    cbn [negb andb matchPatterns].
    destruct (MatchString "Coordinator stopped" s) as [[] [e|]]; reflexivity. }
  split; [|split; [|split]].
  - intros patterns. reflexivity.
  - intros st unixNano row Habsent. rewrite showReplicaStatus_hasError.
    unfold lastSQLErrorOf. destruct Habsent as [-> | ->]; reflexivity.
  - exact Hdefault.
  - intros Hm. rewrite Hdefault. unfold patternMatches. rewrite Hm. reflexivity.
Qed.

(** C9: for a non-empty [lastSQLError], [hasError] is true exactly when some
    pattern matches without error.  A pattern whose evaluation fails counts
    as no match and is logged, and a pattern that matches anywhere in the
    list still makes [hasError] true. *)
Theorem C9_failing_pattern_is_skipped (patterns : list string) (s : string) :
  s <> EmptyString ->
  fst (checkErrorPatterns MatchString patterns s)
  = existsb (patternMatches MatchString s) patterns /\
  (forall pattern matched e,
     In pattern patterns -> MatchString pattern s = (matched, Some e) ->
     patternMatches MatchString s pattern = false /\
     In (LogRegexError pattern e) (snd (checkErrorPatterns MatchString patterns s))) /\
  (forall before pattern after,
     patterns = before ++ pattern :: after ->
     MatchString pattern s = (true, None) ->
     fst (checkErrorPatterns MatchString patterns s) = true).
Proof.
  intros Hs. apply String.eqb_neq in Hs.
  unfold checkErrorPatterns. rewrite Hs. cbn [negb].
  split; [|split].
  - apply matchPatterns_fst.
  - intros pattern matched e Hin Hm. split.
    + unfold patternMatches. rewrite Hm. reflexivity.
    + eapply matchPatterns_logs; eassumption.
  - intros before pattern after -> Hm. rewrite matchPatterns_fst.
    rewrite existsb_app. cbn [existsb orb]. unfold patternMatches at 2.
    rewrite Hm. rewrite orb_true_r. reflexivity.
Qed.

(** The lag state after a run of cycles is the lag state after the update
    calls on the samples of those cycles. *)
Lemma iteration_stats st env :
  fst (iteration Sscanf_d MatchString st env)
  = match cycleSample Sscanf_d env with
    | Some s => updateSample st s
    | None => st
    end.
Proof.
  unfold iteration.
  pose proof (showReplicaStatus_stats st (clock env) (query env)) as H.
  destruct (showReplicaStatus Sscanf_d MatchString st (clock env) (query env))
    as [[st' h] out].
  cbn [fst] in *. rewrite H. unfold cycleSample.
  destruct (query env) as [e|e| |e|row]; try reflexivity.
  destruct (lagSample Sscanf_d row); reflexivity.
Qed.

Lemma mainLoop_stats envs : forall st,
  fst (mainLoop Sscanf_d MatchString st envs) = runUpdates st (samplesOf Sscanf_d envs).
Proof.
  induction envs as [|env rest IH]; intros st; [reflexivity|].
  cbn [mainLoop samplesOf flat_map].
  pose proof (iteration_stats st env) as Hit.
  destruct (iteration Sscanf_d MatchString st env) as [st1 evs].
  specialize (IH st1).
  destruct (mainLoop Sscanf_d MatchString st1 rest) as [st2 evs'].
  cbn [fst] in *. rewrite IH, Hit, runUpdates_app.
  destruct (cycleSample Sscanf_d env); reflexivity.
Qed.

Lemma samplesOf_none envs :
  (forall e, In e envs -> cycleSample Sscanf_d e = None) -> samplesOf Sscanf_d envs = [].
Proof.
  induction envs as [|env rest IH]; intros H; [reflexivity|].
  cbn [samplesOf flat_map]. rewrite (H env (or_introl eq_refl)).
  apply IH. intros e He. apply H. right. exact He.
Qed.

(** C7: [startTime] and [startSecondsBehind] are unset before the first
    sample, are assigned on the first update call (which leaves
    [ratePerSecond] at 0, the estimate unset and prints no instant line), and
    keep the values of that first sample through every later update call.
    In a run of the loop, the first update call is the first cycle whose row
    carries a lag sample. *)
Theorem C7_anchor_set_once_on_first_sample
  (lag0 t0 : Z) (rest : list Sample) (before after : list CycleEnv) (env : CycleEnv) :
  Time_eqb (startTime replicationStats0) zeroTime = true /\
  (let first := runUpdates replicationStats0 [(lag0, t0)] in
   startSecondsBehind first = lag0 /\ startTime first = Now t0 /\
   ratePerSecond first = 0%float /\ IsZero (estimatedTime first) = true /\
   instantLines first (Now t0) = []) /\
  (let later := runUpdates replicationStats0 ((lag0, t0) :: rest) in
   startSecondsBehind later = lag0 /\ startTime later = Now t0) /\
  ((forall e, In e before -> cycleSample Sscanf_d e = None) ->
   cycleSample Sscanf_d env = Some (lag0, t0) ->
   fst (mainLoop Sscanf_d MatchString replicationStats0 before) = replicationStats0 /\
   let later := fst (mainLoop Sscanf_d MatchString replicationStats0
                       (before ++ env :: after)) in
   startSecondsBehind later = lag0 /\ startTime later = Now t0).
Proof.
  split; [reflexivity|]. split; [|split].
  - change (runUpdates replicationStats0 [(lag0, t0)])
      with (updateLag replicationStats0 lag0 (Now t0)).
    rewrite first_update. cbn [startSecondsBehind startTime ratePerSecond estimatedTime].
    repeat split; reflexivity.
  - cbv zeta. destruct (runUpdates_first lag0 t0 rest) as [H1 H2]. split; assumption.
  - intros Hbefore Henv. rewrite !mainLoop_stats.
    unfold samplesOf. rewrite flat_map_app. cbn [flat_map]. rewrite Henv.
    fold (samplesOf Sscanf_d before). fold (samplesOf Sscanf_d after).
    rewrite (samplesOf_none before Hbefore).
    split; [reflexivity|]. cbn [app].
    destruct (runUpdates_first lag0 t0 (samplesOf Sscanf_d after)) as [H1 H2].
    split; assumption.
Qed.

(** C10: a cycle whose [Seconds_Behind_Source] column is absent, NULL, the
    text ["NULL"], empty, or does not scan as an integer (and likewise a
    cycle without a scanned row) leaves the whole lag state as it was; a cycle
    that changes the lag state scanned a row with a lag sample and applied
    the update to it. *)
Theorem C10_only_lag_samples_change_the_state
  (st : ReplicationStats) (unixNano : Z) (q : QueryOutcome) :
  ((forall row, q = Scanned row ->
      findColumn "Seconds_Behind_Source" row = None \/
      findColumn "Seconds_Behind_Source" row = Some VNil \/
      exists v strVal,
        findColumn "Seconds_Behind_Source" row = Some v /\
        strValOf v = Some strVal /\
        (strVal = "NULL"%string \/ strVal = EmptyString \/ Sscanf_d strVal = None)) ->
   fst (fst (showReplicaStatus Sscanf_d MatchString st unixNano q)) = st) /\
  (fst (fst (showReplicaStatus Sscanf_d MatchString st unixNano q)) <> st ->
   exists row seconds,
     q = Scanned row /\ lagSample Sscanf_d row = Some seconds /\
     fst (fst (showReplicaStatus Sscanf_d MatchString st unixNano q))
     = updateLag st seconds (Now unixNano)).
Proof.
  rewrite showReplicaStatus_stats. split.
  - intros Hno. destruct q as [e|e| |e|row]; try reflexivity.
    specialize (Hno row eq_refl). unfold lagSample.
    destruct Hno as [-> | [-> | (v & strVal & -> & Hv & Hs)]]; try reflexivity.
    rewrite Hv. destruct Hs as [-> | [-> | Hs]]; try reflexivity.
    rewrite Hs. destruct (negb _ && negb _); reflexivity.
  - intros Hch. destruct q as [e|e| |e|row]; try (exfalso; apply Hch; reflexivity).
    destruct (lagSample Sscanf_d row) as [seconds|] eqn:E;
      [|exfalso; apply Hch; reflexivity].
    exists row, seconds. repeat split. exact E.
Qed.

End MonitorFacts.

(** * The properties on concrete runs *)

Lemma literalMatchString_literal p s :
  literalPattern p = true -> literalMatchString p s = (containsb p s, None).
Proof. intros H. unfold literalMatchString. rewrite H. reflexivity. Qed.

(** A status row with a matching error: the recovery command runs once, here
    failing, and the loop goes on. *)
Lemma C4_witness :
  let env := mkEnv 0 (Scanned [("Last_SQL_Error"%string,
                                VBytes "Coordinator stopped because of an error")])
                   (Some "connection lost"%string) in
  snd (fst (showReplicaStatus scanDecimal literalMatchString replicationStats0
              (clock env) (query env))) = true /\
  execCount (snd (iteration scanDecimal literalMatchString replicationStats0 env)) = 1%nat.
Proof.
  cbv zeta.
  assert (H : snd (fst (showReplicaStatus scanDecimal literalMatchString replicationStats0
                     0 (Scanned [("Last_SQL_Error"%string,
                                  VBytes "Coordinator stopped because of an error")])))
              = true) by (vm_compute; reflexivity).
  split; [exact H|].
  exact (proj1 (C4_recovery_once_then_immediate_poll scanDecimal literalMatchString
                  replicationStats0
                  (mkEnv 0 (Scanned [("Last_SQL_Error"%string,
                                      VBytes "Coordinator stopped because of an error")])
                         (Some "connection lost"%string))
                  [] H)).
Defined.

Lemma C5_witness :
  query (mkEnv 0 NoRows None) = NoRows /\
  exists line,
    iteration scanDecimal literalMatchString replicationStats0 (mkEnv 0 NoRows None)
    = (replicationStats0, [EvQuery; EvOut line; EvSleep (5 * Second)]).
Proof.
  split; [reflexivity|].
  destruct (C5_fetch_failure_or_no_row_sleeps scanDecimal literalMatchString
              replicationStats0 (mkEnv 0 NoRows None) (or_intror (or_introl eq_refl)))
    as (line & _ & _ & H & _).
  exists line. exact H.
Defined.

Lemma C6_witness :
  literalMatchString "Coordinator stopped" "Coordinator stopped unexpectedly" = (true, None) /\
  fst (checkErrorPatterns literalMatchString errorPatterns
         "Coordinator stopped unexpectedly") = true.
Proof.
  split; [reflexivity|].
  exact (proj2 (proj2 (proj2 (C6_error_matcher_examples scanDecimal literalMatchString)))
           eq_refl).
Defined.

(** The first pattern is outside the model and evaluates to an error; the
    second still matches. *)
Lemma C9_witness :
  "Coordinator stopped unexpectedly"%string <> EmptyString /\
  fst (literalMatchString "Coordinator (stopped" "Coordinator stopped unexpectedly")
  = false /\
  fst (checkErrorPatterns literalMatchString
         ["Coordinator (stopped"; "Coordinator stopped"]%string
         "Coordinator stopped unexpectedly") = true.
Proof.
  assert (Hne : "Coordinator stopped unexpectedly"%string <> EmptyString) by discriminate.
  split; [exact Hne|]. split; [reflexivity|].
  apply (proj2 (proj2 (C9_failing_pattern_is_skipped literalMatchString
                         ["Coordinator (stopped"; "Coordinator stopped"]%string
                         "Coordinator stopped unexpectedly" Hne))
           ["Coordinator (stopped"%string] "Coordinator stopped"%string []).
  - reflexivity.
  - reflexivity.
Defined.

(** A NULL lag after one sample: the state of that sample stays. *)
Lemma C10_witness :
  let st := updateLag replicationStats0 100 (Now 0) in
  fst (fst (showReplicaStatus scanDecimal literalMatchString st (5 * Second)
              (Scanned [("Seconds_Behind_Source"%string, VNil)]))) = st.
Proof.
  cbv zeta.
  apply (proj1 (C10_only_lag_samples_change_the_state scanDecimal literalMatchString
                  (updateLag replicationStats0 100 (Now 0)) (5 * Second)
                  (Scanned [("Seconds_Behind_Source"%string, VNil)]))).
  intros row Hrow. injection Hrow as <-. right. left. reflexivity.
Defined.

(** Two cycles without a lag value, then 100 seconds of lag at 10s, then 90
    at 20s: the anchor is the third cycle. *)
Lemma C7_witness :
  let nolag := mkEnv 0 (Scanned [("Seconds_Behind_Source"%string, VNil)]) None in
  let first := mkEnv (10 * Second)
                 (Scanned [("Seconds_Behind_Source"%string, VBytes "100")]) None in
  let second := mkEnv (20 * Second)
                  (Scanned [("Seconds_Behind_Source"%string, VBytes "90")]) None in
  let st := fst (mainLoop scanDecimal literalMatchString replicationStats0
                   ([nolag; mkEnv (5 * Second) NoRows None] ++ first :: [second])) in
  startSecondsBehind st = 100 /\ startTime st = Now (10 * Second).
Proof.
  cbv zeta.
  apply (proj2 (proj2 (proj2 (C7_anchor_set_once_on_first_sample
           scanDecimal literalMatchString 100 (10 * Second) []
           [mkEnv 0 (Scanned [("Seconds_Behind_Source"%string, VNil)]) None;
            mkEnv (5 * Second) NoRows None]
           [mkEnv (20 * Second)
              (Scanned [("Seconds_Behind_Source"%string, VBytes "90")]) None]
           (mkEnv (10 * Second)
              (Scanned [("Seconds_Behind_Source"%string, VBytes "100")]) None))))).
  - intros e [<-|[<-|[]]]; reflexivity.
  - reflexivity.
Defined.

(** * More facts about binary64 arithmetic

    The sign of [float64(n) / d.Seconds()] for a positive duration [d] is the
    sign of [n]: [d.Seconds()] is finite and below [2 ^ 37], so the quotient
    of an integer by it neither underflows to zero nor is NaN. *)

Module F64Sign.

Import F64 F64Facts.

Lemma round_nearest_even_le m l : round_nearest_even m l <= m + 1.
Proof. destruct l as [|[]]; simpl; try lia. destruct (Z.even m); lia. Qed.

Lemma log2_succ_le m : 0 < m -> Z.log2 (m + 1) <= Z.log2 m + 1.
Proof.
  intros Hm. transitivity (Z.log2 (2 * m)).
  - apply Z.log2_le_mono. lia.
  - rewrite Z.log2_double by lia. lia.
Qed.

(** The two roundings of [binary_round_aux], followed through. *)
Lemma binary_round_aux_shape s m e l : 0 < m -> -1074 < Z.log2 m + 1 + e ->
  exists m' e',
    binary_round_aux prec emax s m e l
    = (if e' <=? emax - prec then S754_finite s m' e' else S754_infinity s) /\
    Z.log2 m + 1 + e <= Z.log2 (Zpos m') + 1 + e' <= Z.log2 m + 1 + e + 1.
Proof.
  intros Hm Hk. unfold binary_round_aux.
  destruct (shr_fexp_pos m e l Hm Hk) as [H1 H2].
  destruct (shr_fexp prec emax m e l) as [mrs' e'] eqn:E1.
  simpl fst in *; simpl snd in *.
  set (m2 := round_nearest_even (shr_m mrs') (loc_of_shr_record mrs')).
  assert (Hm2 : shr_m mrs' <= m2) by (apply round_nearest_even_ge; assumption).
  assert (Hm2' : m2 <= shr_m mrs' + 1) by apply round_nearest_even_le.
  assert (Hl2 : Z.log2 (shr_m mrs') <= Z.log2 m2) by (apply Z.log2_le_mono; assumption).
  assert (Hl2' : Z.log2 m2 <= Z.log2 (shr_m mrs') + 1).
  { etransitivity; [apply Z.log2_le_mono; exact Hm2'|]. apply log2_succ_le; assumption. }
  destruct (shr_fexp_pos m2 e' loc_Exact) as [H3 H4]; [lia | lia | idtac].
  destruct (shr_fexp prec emax m2 e' loc_Exact) as [mrs'' e''] eqn:E2.
  simpl fst in *; simpl snd in *.
  destruct (shr_m mrs'') as [|p|p] eqn:E3; try lia.
  exists p, e''. split; [reflexivity | lia].
Qed.

Lemma binary_round_aux_nonzero s m e l : 0 < m -> -1074 < Z.log2 m + 1 + e ->
  NonZeroF s (Z.log2 m + 1 + e) (binary_round_aux prec emax s m e l).
Proof.
  intros Hm Hk.
  destruct (binary_round_aux_shape s m e l Hm Hk) as (m' & e' & -> & Hb).
  destruct (e' <=? emax - prec); cbn [NonZeroF]; [split; [reflexivity | lia] | reflexivity].
Qed.

Lemma binary_round_aux_bound m e l : 0 < m ->
  -1074 < Z.log2 m + 1 + e -> Z.log2 m + 1 + e <= 970 ->
  BoundF (Z.log2 m + 1 + e) (Z.log2 m + 1 + e + 1) (binary_round_aux prec emax false m e l).
Proof.
  intros Hm Hk Hhi.
  destruct (binary_round_aux_shape false m e l Hm Hk) as (m' & e' & -> & Hb).
  assert (0 <= Z.log2 (Zpos m')) by apply Z.log2_nonneg.
  replace (e' <=? emax - prec) with true
    by (symmetry; apply Z.leb_le; change (emax - prec) with 971; lia).
  cbn [BoundF]. exact Hb.
Qed.

Lemma binary_round_bound m e :
  -1074 < Z.log2 (Zpos m) + 1 + e -> Z.log2 (Zpos m) + 1 + e <= 970 ->
  BoundF (Z.log2 (Zpos m) + 1 + e) (Z.log2 (Zpos m) + 1 + e + 1)
         (binary_round prec emax false m e).
Proof.
  intros Hk Hhi. unfold binary_round.
  pose proof (shl_align_log2 m e (fexp prec emax (Zpos (digits2_pos m) + e))) as H.
  destruct (shl_align m e (fexp prec emax (Zpos (digits2_pos m) + e))) as [mz ez].
  simpl fst in H; simpl snd in H.
  replace (Z.log2 (Zpos m) + 1 + e) with (Z.log2 (Zpos mz) + 1 + ez) by lia.
  apply binary_round_aux_bound; lia.
Qed.

Lemma BoundF_weaken lo hi lo' hi' x : lo' <= lo -> hi <= hi' -> BoundF lo hi x -> BoundF lo' hi' x.
Proof. destruct x as [| | |[] m e]; simpl; auto; lia. Qed.

Lemma NonZeroF_weaken s k k' x : k' <= k -> NonZeroF s k x -> NonZeroF s k' x.
Proof. destruct x as [| | |s' m e]; simpl; auto. intros H [H1 H2]. split; [exact H1 | lia]. Qed.

Lemma BoundF_NonZeroF lo hi x : BoundF lo hi x -> NonZeroF false lo x.
Proof. destruct x as [| | |[] m e]; simpl; auto; try contradiction. intros H; split; [reflexivity | lia]. Qed.

Lemma PosF_NonZeroF k x : PosF k x -> NonZeroF false k x.
Proof.
  destruct x as [[]|[]| |[] m e]; simpl; intros H; try (exfalso; exact H); auto.
Qed.

Lemma SFopp_NonZeroF s k x : NonZeroF s k x -> NonZeroF (negb s) k (SFopp x).
Proof.
  destruct x as [| | |s' m e]; simpl; auto.
  - intros ->. reflexivity.
  - intros [-> H]. split; [reflexivity | exact H].
Qed.

Lemma ofInt64_nonzero z : minInt64 <= z <= maxInt64 -> z <> 0 ->
  NonZeroF (z <? 0) 1 (Prim2SF (ofInt64 z)).
Proof.
  intros Hz Hn. destruct (Z.ltb_spec z 0) as [Hneg|Hpos].
  - unfold ofInt64. destruct (z =? minInt64) eqn:E.
    + vm_compute. split; [reflexivity | discriminate].
    + apply Z.eqb_neq in E.
      replace (z <? 0) with true by (symmetry; apply Z.ltb_lt; lia).
      rewrite FloatAxioms.opp_spec, of_uint63_spec_Z
        by (unfold minInt64, maxInt64 in *; lia).
      apply (SFopp_NonZeroF false). apply PosF_NonZeroF.
      destruct z as [|p|p]; try lia. cbn [Z.opp binary_normalize].
      assert (0 <= Z.log2 (Zpos p)) by apply Z.log2_nonneg.
      eapply PosF_weaken; [|apply binary_round_pos]; lia.
  - apply PosF_NonZeroF, ofInt64_pos. lia.
Qed.

Lemma ofInt64_bound z k : 0 < z < 2 ^ k -> 0 <= k <= 63 ->
  BoundF 1 (k + 1) (Prim2SF (ofInt64 z)).
Proof.
  intros Hz Hk.
  assert (Hlt : 2 ^ k <= 2 ^ 63) by (apply Z.pow_le_mono_r; lia).
  unfold ofInt64.
  replace (z =? minInt64) with false by (symmetry; apply Z.eqb_neq; unfold minInt64; lia).
  replace (z <? 0) with false by (symmetry; apply Z.ltb_ge; lia).
  rewrite of_uint63_spec_Z by (unfold maxInt64; lia).
  destruct z as [|p|p]; try lia. cbn [binary_normalize].
  assert (H0 : 0 <= Z.log2 (Zpos p)) by apply Z.log2_nonneg.
  assert (H1 : Z.log2 (Zpos p) < k) by (apply Z.log2_lt_pow2; lia).
  eapply BoundF_weaken; [| |apply binary_round_bound]; lia.
Qed.

(** The quotient of two finite values before rounding. *)
Lemma SFdiv_shape sx mx ex my ey :
  -1000 <= Z.log2 (Zpos mx) + 1 + ex - (Z.log2 (Zpos my) + 1 + ey) ->
  exists q e' l,
    SFdiv prec emax (S754_finite sx mx ex) (S754_finite false my ey)
    = binary_round_aux prec emax sx q e' l /\
    0 < q /\
    Z.log2 (Zpos mx) + 1 + ex - (Z.log2 (Zpos my) + 1 + ey) <= Z.log2 q + 1 + e'
    <= Z.log2 (Zpos mx) + 1 + ex - (Z.log2 (Zpos my) + 1 + ey) + 1.
Proof.
  intros Ht. cbn [SFdiv]. rewrite xorb_false_r.
  unfold SFdiv_core_binary.
  replace (Zdigits2 (Zpos mx)) with (Z.log2 (Zpos mx) + 1) by (symmetry; apply digits2_log2).
  replace (Zdigits2 (Zpos my)) with (Z.log2 (Zpos my) + 1) by (symmetry; apply digits2_log2).
  set (L := Z.log2 (Zpos mx)) in *. set (Ly := Z.log2 (Zpos my)) in *.
  rewrite fexp_eq.
  replace (Z.max (L + 1 + ex - (Ly + 1 + ey) - 53) (-1074))
    with (L + ex - Ly - ey - 53) by lia.
  set (e' := Z.min (L + ex - Ly - ey - 53) (ex - ey)).
  set (s := ex - ey - e').
  assert (Hs : Ly - L + 53 <= s) by (subst s e'; lia).
  assert (Hs0 : 0 <= s) by (subst s e'; lia).
  assert (HL : 0 <= L) by apply Z.log2_nonneg.
  assert (HLy : 0 <= Ly) by apply Z.log2_nonneg.
  set (m' := match s with
             | Z0 => Zpos mx
             | Zpos _ => Z.shiftl (Zpos mx) s
             | Zneg _ => 0
             end).
  assert (Hm' : m' = Zpos mx * 2 ^ s).
  { subst m'. destruct s as [|p|p] eqn:Es; try lia.
    rewrite Z.shiftl_mul_pow2 by lia. reflexivity. }
  pose proof (Z.div_eucl_eq m' (Zpos my) ltac:(lia)) as Hdiv.
  pose proof (Z.mod_pos_bound m' (Zpos my) ltac:(lia)) as Hmod.
  unfold Z.modulo in Hmod.
  destruct (Z.div_eucl m' (Zpos my)) as [q r].
  destruct (Z.log2_spec (Zpos mx) ltac:(lia)) as [Hlo Hhi]. fold L in Hlo, Hhi.
  destruct (Z.log2_spec (Zpos my) ltac:(lia)) as [Hylo Hyhi]. fold Ly in Hylo, Hyhi.
  assert (Hpow : 2 ^ (L + s) <= m' < 2 ^ (L + s + 1)).
  { rewrite Hm'. replace (L + s + 1) with (Z.succ L + s) by lia.
    rewrite !Z.pow_add_r by lia.
    assert (0 < 2 ^ s) by (apply Z.pow_pos_nonneg; lia). nia. }
  set (P := 2 ^ (L + s - Ly - 1)).
  assert (HP : 0 < P) by (apply Z.pow_pos_nonneg; lia).
  assert (HYP : 2 ^ Z.succ Ly * P = 2 ^ (L + s))
    by (subst P; rewrite <- Z.pow_add_r by lia; f_equal; lia).
  assert (Hq : P <= q).
  { destruct (Z_lt_le_dec q P) as [Hlt|Hge]; [exfalso | exact Hge].
    assert (Zpos my * (q + 1) <= Zpos my * P) by nia.
    assert (Zpos my * P < 2 ^ Z.succ Ly * P) by nia.
    lia. }
  assert (Hqpos : 0 < q) by lia.
  assert (Hlq : L + s - Ly - 1 <= Z.log2 q) by (apply Z.log2_le_pow2; assumption).
  assert (Hq2 : q < 2 ^ (L + s + 1 - Ly)).
  { assert (HY2 : 2 ^ Ly * 2 ^ (L + s + 1 - Ly) = 2 ^ (L + s + 1))
      by (rewrite <- Z.pow_add_r by lia; f_equal; lia).
    assert (0 < 2 ^ (L + s + 1 - Ly)) by (apply Z.pow_pos_nonneg; lia).
    destruct (Z_lt_le_dec q (2 ^ (L + s + 1 - Ly))) as [Hlt|Hge]; [exact Hlt | exfalso].
    assert (2 ^ Ly * 2 ^ (L + s + 1 - Ly) <= Zpos my * q) by nia.
    lia. }
  assert (Hlq2 : Z.log2 q < L + s + 1 - Ly) by (apply Z.log2_lt_pow2; assumption).
  exists q, e', (new_location (Zpos my) r).
  split; [reflexivity|]. split; [exact Hqpos|]. subst s. lia.
Qed.

Lemma SFdiv_nonzero s x my ey hi : NonZeroF s 1 x ->
  Z.log2 (Zpos my) + 1 + ey <= hi -> hi <= 1000 ->
  NonZeroF s (1 - hi) (SFdiv prec emax x (S754_finite false my ey)).
Proof.
  intros Hx Hy Hhi. destruct x as [sx|sx| |sx mx ex]; try (exfalso; exact Hx).
  - cbn [NonZeroF] in Hx. subst sx. cbn [SFdiv]. rewrite xorb_false_r. reflexivity.
  - destruct Hx as [-> Hx].
    destruct (SFdiv_shape s mx ex my ey) as (q & e' & l & -> & Hq & Hb); [lia|].
    eapply NonZeroF_weaken; [|apply binary_round_aux_nonzero]; lia.
Qed.

Lemma SFdiv_bound mx ex my ey :
  -1000 <= Z.log2 (Zpos mx) + 1 + ex - (Z.log2 (Zpos my) + 1 + ey) <= 900 ->
  BoundF (Z.log2 (Zpos mx) + 1 + ex - (Z.log2 (Zpos my) + 1 + ey))
         (Z.log2 (Zpos mx) + 1 + ex - (Z.log2 (Zpos my) + 1 + ey) + 2)
         (SFdiv prec emax (S754_finite false mx ex) (S754_finite false my ey)).
Proof.
  intros Ht.
  destruct (SFdiv_shape false mx ex my ey) as (q & e' & l & -> & Hq & Hb); [lia|].
  eapply BoundF_weaken; [| |apply binary_round_aux_bound]; lia.
Qed.

Lemma SFadd_bound mx ex my ey hi :
  -1074 < Z.log2 (Zpos mx) + 1 + ex -> Z.log2 (Zpos mx) + 1 + ex <= hi ->
  Z.log2 (Zpos my) + 1 + ey <= hi -> hi <= 900 ->
  BoundF (Z.log2 (Zpos mx) + 1 + ex) (hi + 2)
         (SFadd prec emax (S754_finite false mx ex) (S754_finite false my ey)).
Proof.
  intros Hk Hx Hy Hhi. cbn [SFadd cond_Zopp].
  set (ez := Z.min ex ey).
  pose proof (shl_align_log2 mx ex ez) as Hax.
  rewrite shl_align_snd in Hax by (subst ez; lia).
  pose proof (shl_align_log2 my ey ez) as Hay.
  rewrite shl_align_snd in Hay by (subst ez; lia).
  set (a := fst (shl_align mx ex ez)) in *.
  set (b := fst (shl_align my ey ez)) in *.
  change (Zpos a + Zpos b) with (Zpos (a + b)). cbn [binary_normalize].
  assert (Hle : Z.log2 (Zpos a) <= Z.log2 (Zpos (a + b))) by (apply Z.log2_le_mono; lia).
  assert (Hub : Z.log2 (Zpos (a + b)) <= Z.max (Z.log2 (Zpos a)) (Z.log2 (Zpos b)) + 1).
  { destruct (Z.le_ge_cases (Zpos a) (Zpos b)) as [Hab|Hab].
    - transitivity (Z.log2 (2 * Zpos b)); [apply Z.log2_le_mono; lia|].
      rewrite Z.log2_double by lia. lia.
    - transitivity (Z.log2 (2 * Zpos a)); [apply Z.log2_le_mono; lia|].
      rewrite Z.log2_double by lia. lia. }
  eapply BoundF_weaken; [| |apply binary_round_bound]; lia.
Qed.

Lemma BoundF_inv lo hi x : BoundF lo hi x ->
  exists m e, x = S754_finite false m e /\ lo <= Z.log2 (Zpos m) + 1 + e <= hi.
Proof.
  destruct x as [| | |[] m e]; simpl; intros H; try contradiction.
  exists m, e. split; [reflexivity | exact H].
Qed.

(** [d.Seconds()] of a positive duration is a finite positive value below
    [2 ^ 37]. *)
Lemma Seconds_bound d : 0 < d <= maxDuration ->
  BoundF (-29) 37 (Prim2SF (Seconds d)).
Proof.
  unfold maxDuration, maxInt64. intros Hd. rewrite Seconds_spec.
  assert (Hq : 0 <= Z.quot d Second < 2 ^ 34).
  { unfold Second. split; [apply Z.quot_pos; lia|].
    apply Z.quot_lt_upper_bound; lia. }
  assert (Hr : 0 <= Z.rem d Second < Second) by (apply Z.rem_bound_pos; unfold Second; lia).
  assert (Hqr : d = Second * Z.quot d Second + Z.rem d Second) by apply Z.quot_rem'.
  set (sec := Z.quot d Second) in *. set (nsec := Z.rem d Second) in *.
  destruct (Z.eq_dec nsec 0) as [En|En].
  - (* whole seconds *)
    rewrite En, ofInt64_zero. cbn [SFdiv sf1e9 xorb].
    assert (Hs : 0 < sec) by (unfold Second in *; lia).
    destruct (BoundF_inv _ _ _ (ofInt64_bound sec 34 ltac:(lia) ltac:(lia)))
      as (m & e & -> & Hb).
    cbn [SFadd BoundF]. lia.
  - assert (HB : BoundF 1 31 (Prim2SF (ofInt64 nsec)))
      by (apply (ofInt64_bound nsec 30); unfold Second in *; lia).
    destruct (BoundF_inv _ _ _ HB) as (mb & eb & -> & Hb).
    assert (HQ : BoundF (-29) 3 (SFdiv prec emax (S754_finite false mb eb) sf1e9)).
    { unfold sf1e9. eapply BoundF_weaken; [| |apply SFdiv_bound];
        change (Z.log2 (Zpos 8388608000000000)) with 52; lia. }
    destruct (BoundF_inv _ _ _ HQ) as (mq & eq_ & -> & Hbq).
    destruct (Z.eq_dec sec 0) as [Es|Es].
    + rewrite Es, ofInt64_zero. cbn [SFadd BoundF]. lia.
    + destruct (BoundF_inv _ _ _ (ofInt64_bound sec 34 ltac:(lia) ltac:(lia)))
        as (m & e & -> & Hb0).
      eapply BoundF_weaken; [| |apply (SFadd_bound m e mq eq_ 35)]; lia.
Qed.

Lemma NonZeroF_true_lt0 k x : NonZeroF true k x -> SFltb x (S754_zero false) = true.
Proof.
  destruct x as [| | |s m e]; simpl; try contradiction.
  - intros ->. reflexivity.
  - intros [-> _]. reflexivity.
Qed.

Lemma NonZeroF_false_gt0 k x : NonZeroF false k x -> SFltb (S754_zero false) x = true.
Proof.
  destruct x as [| | |s m e]; simpl; try contradiction.
  - intros ->. reflexivity.
  - intros [-> _]. reflexivity.
Qed.

(** The sign of [float64(z) / d.Seconds()] for a positive duration is the
    sign of [z]. *)
Lemma quotient_negative z d : minInt64 <= z < 0 -> 0 < d <= maxDuration ->
  lt0 (ofInt64 z / Seconds d) = true.
Proof.
  intros Hz Hd. unfold lt0.
  rewrite FloatAxioms.ltb_spec, FloatAxioms.div_spec, Prim2SF_0.
  destruct (BoundF_inv _ _ _ (Seconds_bound d Hd)) as (my & ey & -> & Hb).
  pose proof (ofInt64_nonzero z ltac:(unfold minInt64, maxInt64 in *; lia) ltac:(lia)) as Hn.
  replace (z <? 0) with true in Hn by (symmetry; apply Z.ltb_lt; lia).
  apply (NonZeroF_true_lt0 (1 - 37)). apply SFdiv_nonzero; [exact Hn | lia | lia].
Qed.

Lemma quotient_positive z d : 0 < z <= maxInt64 -> 0 < d <= maxDuration ->
  gt0 (ofInt64 z / Seconds d) = true.
Proof.
  intros Hz Hd. unfold gt0.
  rewrite FloatAxioms.ltb_spec, FloatAxioms.div_spec, Prim2SF_0.
  destruct (BoundF_inv _ _ _ (Seconds_bound d Hd)) as (my & ey & -> & Hb).
  pose proof (ofInt64_nonzero z ltac:(unfold minInt64, maxInt64 in *; lia) ltac:(lia)) as Hn.
  replace (z <? 0) with false in Hn by (symmetry; apply Z.ltb_ge; lia).
  apply (NonZeroF_false_gt0 (1 - 37)). apply SFdiv_nonzero; [exact Hn | lia | lia].
Qed.

Lemma quotient_zero d : 0 < d <= maxDuration -> (ofInt64 0 / Seconds d)%float = 0%float.
Proof.
  intros Hd. apply Prim2SF_inj.
  rewrite FloatAxioms.div_spec, Prim2SF_0, ofInt64_zero.
  destruct (BoundF_inv _ _ _ (Seconds_bound d Hd)) as (my & ey & -> & Hb).
  reflexivity.
Qed.

Lemma gt0_not_lt0 x : gt0 x = true -> lt0 x = false.
Proof.
  unfold gt0, lt0. rewrite !FloatAxioms.ltb_spec, Prim2SF_0. unfold SFltb.
  destruct (Prim2SF x) as [[]|[]| |[] m e]; simpl; intros H; try discriminate H; reflexivity.
Qed.

End F64Sign.

(** * The lag-trend estimator and its report: further properties *)

Import F64 F64Facts F64Sign.

Lemma runUpdates_snoc st pre s :
  runUpdates st (pre ++ [s]) = updateSample (runUpdates st pre) s.
Proof. rewrite runUpdates_app. reflexivity. Qed.

Lemma updateLag_instant_set st seconds now :
  Time_eqb (lastCheckTime st) zeroTime = false ->
  0 < Sub now (lastCheckTime st) ->
  let rate := (ofInt64 (wrap64 (seconds - lastSecondsBehind st))
               / Seconds (Sub now (lastCheckTime st)))%float in
  ratePerSecond (updateLag st seconds now) = rate /\
  estimatedTime (updateLag st seconds now)
  = if lt0 rate
    then Add now (mulDuration (truncToInt64 (ofInt64 seconds / - rate)) Second)
    else estimatedTime st.
Proof.
  intros Hset Hpos rate.
  rewrite updateLag_ratePerSecond, updateLag_estimatedTime.
  destruct (initStart_keeps st seconds now) as (Hc & Hl & Hr & He & _).
  cbv zeta in Hc, Hl, Hr, He.
  unfold updateInstant. rewrite Hc, Hl, Hset. cbn [negb].
  rewrite Seconds_pos by (split; [exact Hpos | apply Sub_range]).
  cbn [ratePerSecond set_ratePerSecond]. fold rate.
  destruct (lt0 rate);
    cbn [fst ratePerSecond estimatedTime set_estimatedTime set_ratePerSecond];
    split; auto.
Qed.

Lemma runUpdates_two st pre l1 t1 l2 t2 :
  runUpdates st (pre ++ [(l1, t1); (l2, t2)])
  = updateLag (runUpdates st (pre ++ [(l1, t1)])) l2 (Now t2) /\
  lastSecondsBehind (runUpdates st (pre ++ [(l1, t1)])) = l1 /\
  lastCheckTime (runUpdates st (pre ++ [(l1, t1)])) = Now t1.
Proof.
  split.
  - replace (pre ++ [(l1, t1); (l2, t2)]) with ((pre ++ [(l1, t1)]) ++ [(l2, t2)])
      by (rewrite <- app_assoc; reflexivity).
    apply runUpdates_snoc.
  - rewrite runUpdates_snoc. apply (updateLag_last (runUpdates st pre) l1 (Now t1)).
Qed.


Lemma lt0_zero : lt0 0 = false. Proof. reflexivity. Qed.
Lemma ne0_zero : ne0 0 = false. Proof. reflexivity. Qed.

Lemma Sub_Add now d : minDuration <= d <= maxDuration -> Sub (Add now d) now = d.
Proof.
  unfold Sub, Add, minDuration, maxDuration. cbn [t_ns]. intros H.
  replace (t_ns now + d - t_ns now) with d by lia.
  destruct (Z.ltb_spec d minInt64); [lia|].
  destruct (Z.ltb_spec maxInt64 d); [lia|]. reflexivity.
Qed.

(** The sign of a rate [float64(diff) / interval.Seconds()]. *)
Lemma rate_direction diff d :
  minInt64 <= diff <= maxInt64 -> 0 < d <= maxDuration ->
  let rate := (ofInt64 diff / Seconds d)%float in
  (diff < 0 -> lt0 rate = true /\ ne0 rate = true) /\
  (diff = 0 -> rate = 0%float) /\
  (0 < diff -> lt0 rate = false /\ ne0 rate = true).
Proof.
  intros Hdiff Hd rate. subst rate. split; [|split].
  - intros Hneg.
    assert (H : lt0 (ofInt64 diff / Seconds d) = true)
      by (apply quotient_negative; [lia | exact Hd]).
    split; [exact H | apply lt0_ne0; exact H].
  - intros ->. apply quotient_zero. exact Hd.
  - intros Hpos.
    assert (H : gt0 (ofInt64 diff / Seconds d) = true)
      by (apply quotient_positive; [lia | exact Hd]).
    split; [apply gt0_not_lt0; exact H | apply gt0_ne0; exact H].
Qed.

(** X2: with the clock advancing between two consecutive samples, the
    report follows the direction of the lag: a smaller lag prints the
    catching-up line and an instant ETA whose time is now plus its duration,
    an equal lag leaves the rate at 0 and prints no instant line, a larger
    lag prints the falling-behind line. *)
Theorem X2_instant_report_follows_lag_direction
  (st : ReplicationStats) (pre : list Sample) (l1 t1 l2 t2 : Z) :
  t1 < t2 -> 0 <= t2 -> minInt64 <= l2 - l1 <= maxInt64 ->
  let after := runUpdates st (pre ++ [(l1, t1); (l2, t2)]) in
  let eta := mulDuration
               (truncToInt64 (ofInt64 l2 / - ratePerSecond after)) Second in
  (l2 < l1 ->
   lt0 (ratePerSecond after) = true /\
   instantLines after (Now t2)
   = [OutInstantCatchingUp (- ratePerSecond after);
      OutInstantETA eta (Add (Now t2) eta)]) /\
  (l2 = l1 -> ratePerSecond after = 0%float /\ instantLines after (Now t2) = []) /\
  (l1 < l2 ->
   lt0 (ratePerSecond after) = false /\
   instantLines after (Now t2) = [OutInstantFallingBehind (ratePerSecond after)]).
Proof.
  intros Hlt Hclock Hdiff after.
  destruct (runUpdates_two st pre l1 t1 l2 t2) as (Heq & Hl & Hc).
  pose (before := runUpdates st (pre ++ [(l1, t1)])).
  change (after = updateLag before l2 (Now t2)) in Heq.
  change (lastSecondsBehind before = l1) in Hl.
  change (lastCheckTime before = Now t1) in Hc.
  clearbody after before.
  destruct (updateLag_instant_set before l2 (Now t2)) as [Hr He];
    [rewrite Hc; apply Now_not_zero | rewrite Hc; apply Sub_Now_pos; exact Hlt |].
  rewrite Hl, Hc, <- Heq in Hr, He.
  rewrite wrap64_small in Hr, He by exact Hdiff.
  destruct (rate_direction (l2 - l1) (Sub (Now t2) (Now t1)) Hdiff (Sub_Now_pos _ _ Hlt))
    as (Hneg & Hzero & Hpos).
  cbv zeta in Hneg, Hzero, Hpos. rewrite <- Hr in Hneg, Hzero, Hpos.
  rewrite <- Hr in He.
  unfold instantLines. split; [|split].
  - intros Hlag. destruct (Hneg ltac:(lia)) as [H1 H2]. rewrite H1, H2.
    rewrite H1 in He. rewrite He.
    rewrite Add_Now_not_zero by (try exact Hclock; apply wrap64_range).
    rewrite Sub_Add by apply wrap64_range.
    split; reflexivity.
  - intros Hlag. rewrite (Hzero ltac:(lia)). split; reflexivity.
  - intros Hlag. destruct (Hpos ltac:(lia)) as [H1 H2]. rewrite H1, H2.
    split; reflexivity.
Qed.

(** X3: along samples with strictly increasing time, the average line follows
    the direction of the lag since the first sample: a smaller lag prints the
    catching-up line (and nothing after it when the lag is not positive), an
    equal lag leaves the average rate at 0 and prints no average line, a
    larger lag prints the falling-behind line. *)
Theorem X3_average_report_follows_lag_direction
  (l0 t0 : Z) (mid : list Sample) (lk tk : Z) :
  increasingTime ((l0, t0) :: mid ++ [(lk, tk)]) ->
  minInt64 <= lk - l0 <= maxInt64 ->
  let after := runUpdates replicationStats0 ((l0, t0) :: mid ++ [(lk, tk)]) in
  (lk < l0 ->
   exists rest,
     averageLines after lk (Now tk)
     = OutAverageCatchingUp (- averageRatePerSecond after) :: rest /\
     (lk <= 0 -> rest = [])) /\
  (lk = l0 -> averageRatePerSecond after = 0%float /\ averageLines after lk (Now tk) = []) /\
  (l0 < lk ->
   averageLines after lk (Now tk) = [OutAverageFallingBehind (averageRatePerSecond after)]).
Proof.
  intros Hinc Hdiff after.
  pose proof (increasingTime_first_last _ _ _ _ _ Hinc) as Hlt.
  assert (Hr : averageRatePerSecond after
               = (ofInt64 (lk - l0) / Seconds (Sub (Now tk) (Now t0)))%float).
  { subst after. rewrite app_comm_cons, runUpdates_app.
    destruct (runUpdates_first l0 t0 mid) as [Ht Hs].
    rewrite <- (wrap64_small (lk - l0) Hdiff).
    apply average_after_anchor; assumption. }
  destruct (rate_direction (lk - l0) (Sub (Now tk) (Now t0)) Hdiff (Sub_Now_pos _ _ Hlt))
    as (Hneg & Hzero & Hpos).
  cbv zeta in Hneg, Hzero, Hpos. rewrite <- Hr in Hneg, Hzero, Hpos.
  unfold averageLines. split; [|split].
  - intros Hl. destruct (Hneg ltac:(lia)) as [H1 H2]. rewrite H1, H2.
    eexists. split; [reflexivity|].
    intros Hle. replace (0 <? lk) with false by (symmetry; apply Z.ltb_ge; exact Hle).
    reflexivity.
  - intros Hl. rewrite (Hzero ltac:(lia)). split; reflexivity.
  - intros Hl. destruct (Hpos ltac:(lia)) as [H1 H2]. rewrite H1, H2. reflexivity.
Qed.


(** X5: after every update call the state holds the lag and the time of that
    call as the previous sample, and both time stamps are set, also when the
    clock went backwards and no rate was recomputed. *)
Theorem X5_last_sample_recorded
  (st : ReplicationStats) (pre : list Sample) (lag t : Z) :
  let after := runUpdates st (pre ++ [(lag, t)]) in
  lastSecondsBehind after = lag /\ lastCheckTime after = Now t /\
  Time_eqb (lastCheckTime after) zeroTime = false /\
  Time_eqb (startTime after) zeroTime = false.
Proof.
  cbv zeta. rewrite runUpdates_snoc. unfold updateSample. cbn [fst snd].
  destruct (updateLag_last (runUpdates st pre) lag (Now t)) as [Hl Hc].
  rewrite Hl, Hc. repeat split; try apply Now_not_zero.
  rewrite updateLag_startTime. unfold initStart.
  destruct (Time_eqb (startTime (runUpdates st pre)) zeroTime) eqn:E;
    [apply Now_not_zero | exact E].
Qed.

Lemma updateLag_totalTimeElapsed st seconds now :
  totalTimeElapsed (updateLag st seconds now) = totalTimeElapsed st.
Proof.
  unfold updateLag, updateLagTraced, initStart, updateInstant, updateAverage.
  case_ifs; reflexivity.
Qed.

Lemma runUpdates_totalTimeElapsed samples : forall st,
  totalTimeElapsed (runUpdates st samples) = totalTimeElapsed st.
Proof.
  induction samples as [|s samples IH]; intros st; [reflexivity|].
  change (runUpdates st (s :: samples)) with (runUpdates (updateSample st s) samples).
  rewrite IH. apply updateLag_totalTimeElapsed.
Qed.


Lemma lag_breakdown seconds : 0 < seconds ->
  seconds / 86400 * 86400 + (seconds mod 86400) / 3600 * 3600
  + (seconds mod 3600) / 60 * 60 + seconds mod 60 = seconds /\
  0 <= seconds / 86400 /\
  0 <= (seconds mod 86400) / 3600 < 24 /\
  0 <= (seconds mod 3600) / 60 < 60 /\
  0 <= seconds mod 60 < 60.
Proof.
  intros Hpos.
  assert (M1 : (seconds mod 86400) mod 3600 = seconds mod 3600).
  { apply Z.mod_mod_divide. exists 24. reflexivity. }
  assert (M2 : (seconds mod 3600) mod 60 = seconds mod 60).
  { apply Z.mod_mod_divide. exists 60. reflexivity. }
  pose proof (Z.div_mod seconds 86400 ltac:(lia)) as E1.
  pose proof (Z.mod_pos_bound seconds 86400 ltac:(lia)) as B1.
  pose proof (Z.div_mod (seconds mod 86400) 3600 ltac:(lia)) as E2.
  pose proof (Z.div_mod (seconds mod 3600) 60 ltac:(lia)) as E3.
  pose proof (Z.mod_pos_bound seconds 3600 ltac:(lia)) as B2.
  pose proof (Z.mod_pos_bound seconds 60 ltac:(lia)) as B3.
  rewrite M1 in E2. rewrite M2 in E3.
  assert (D1 : 0 <= seconds / 86400) by (apply Z.div_pos; lia).
  assert (D2 : 0 <= (seconds mod 86400) / 3600 < 24).
  { split; [apply Z.div_pos; lia | apply Z.div_lt_upper_bound; lia]. }
  assert (D3 : 0 <= (seconds mod 3600) / 60 < 60).
  { split; [apply Z.div_pos; lia | apply Z.div_lt_upper_bound; lia]. }
  remember (seconds / 86400) as d eqn:Hd.
  remember (seconds mod 86400) as r1 eqn:Hr1.
  remember (r1 / 3600) as h eqn:Hh.
  remember (seconds mod 3600) as r2 eqn:Hr2.
  remember (r2 / 60) as m eqn:Hm.
  remember (seconds mod 60) as s eqn:Hs.
  clear Hd Hr1 Hh Hr2 Hm Hs M1 M2. lia.
Qed.

(** X7: the lag line loses nothing: the units it prints add up to the lag,
    hours are below 24, minutes and seconds below 60, the leading unit is
    not zero, and a lag of zero or less is printed as it is on the caught-up
    line. *)
Theorem X7_lag_line_round_trip (field : string) (seconds : Z) :
  lagLineSeconds (lagLine field seconds) = Some seconds /\
  lagLineInRange (lagLine field seconds).
Proof.
  unfold lagLine.
  destruct (Z.ltb_spec 0 seconds) as [Hpos|Hle]; [|split; [reflexivity | exact Hle]].
  rewrite !Z.rem_mod_nonneg by lia.
  rewrite !Z.quot_div_nonneg by (try lia; apply Z.mod_pos_bound; lia).
  destruct (lag_breakdown seconds Hpos) as (E & D1 & D2 & D3 & D4).
  remember (seconds / 86400) as d eqn:Hd.
  remember ((seconds mod 86400) / 3600) as h eqn:Hh.
  remember ((seconds mod 3600) / 60) as m eqn:Hm.
  remember (seconds mod 60) as s eqn:Hs.
  clear Hd Hh Hm Hs.
  destruct (Z.ltb_spec 0 d); [|destruct (Z.ltb_spec 0 h); [|destruct (Z.ltb_spec 0 m)]];
    cbn [lagLineSeconds lagLineInRange]; (split; [f_equal; lia | lia]).
Qed.

(** * The polling cycle and the loop: further properties *)

Section MoreMonitorFacts.

Variable Sscanf_d : string -> option Z.
Variable MatchString : string -> string -> bool * option error.

Lemma showField_ext row row' now c field :
  findColumn field row = findColumn field row' ->
  showField Sscanf_d row now c field = showField Sscanf_d row' now c field.
Proof. intros H. unfold showField. rewrite H. reflexivity. Qed.

Lemma fold_showField_ext row row' now fields : forall c,
  (forall f, In f fields -> findColumn f row = findColumn f row') ->
  fold_left (showField Sscanf_d row now) fields c
  = fold_left (showField Sscanf_d row' now) fields c.
Proof.
  induction fields as [|f fields IH]; intros c H; [reflexivity|].
  cbn [fold_left]. rewrite (showField_ext row row' now c f) by (apply H; left; reflexivity).
  apply IH. intros g Hg. apply H. right. exact Hg.
Qed.

(** [showReplicaStatus] sees a row only through the first column of each
    key field. *)
Lemma showReplicaStatus_ext st unixNano row row' :
  (forall f, In f keyFields -> findColumn f row = findColumn f row') ->
  showReplicaStatus Sscanf_d MatchString st unixNano (Scanned row)
  = showReplicaStatus Sscanf_d MatchString st unixNano (Scanned row').
Proof.
  intros H. unfold showReplicaStatus.
  rewrite (fold_showField_ext row row' (Now unixNano) keyFields _ H). reflexivity.
Qed.

Lemma findColumn_filter field row :
  isKeyField field = true ->
  findColumn field (filter (fun cv => isKeyField (fst cv)) row) = findColumn field row.
Proof.
  intros Hk. induction row as [|[col val] row IH]; [reflexivity|].
  cbn [filter fst findColumn].
  destruct (String.eqb_spec col field) as [->|Hne].
  - rewrite Hk. cbn [findColumn]. rewrite String.eqb_refl. reflexivity.
  - destruct (isKeyField col); [|exact IH].
    cbn [findColumn]. rewrite (proj2 (String.eqb_neq col field) Hne). exact IH.
Qed.

Lemma keyField_isKeyField f : In f keyFields -> isKeyField f = true.
Proof.
  intros H. unfold isKeyField. apply existsb_exists. exists f.
  split; [exact H | apply String.eqb_refl].
Qed.

(** X8: columns that are not among the ten key fields change nothing: the
    state, the result and the output are those of the row without them. *)
Theorem X8_other_columns_ignored (st : ReplicationStats) (unixNano : Z) (row : Row) :
  showReplicaStatus Sscanf_d MatchString st unixNano
    (Scanned (filter (fun cv => isKeyField (fst cv)) row))
  = showReplicaStatus Sscanf_d MatchString st unixNano (Scanned row).
Proof.
  apply showReplicaStatus_ext. intros f Hf.
  apply findColumn_filter, keyField_isKeyField, Hf.
Qed.

Lemma findColumn_perm field row row' :
  Permutation row row' -> NoDup (map fst row) ->
  findColumn field row = findColumn field row'.
Proof.
  intros Hp. induction Hp as [|[col val] l l' Hp IH|[c1 v1] [c2 v2] l|l l' l'' Hp1 IH1 Hp2 IH2];
    intros Hnd.
  - reflexivity.
  - cbn [findColumn]. destruct (String.eqb col field); [reflexivity|].
    apply IH. cbn [map] in Hnd. inversion Hnd; assumption.
  - cbn [findColumn].
    destruct (String.eqb_spec c1 field) as [->|H1];
      destruct (String.eqb_spec c2 field) as [->|H2]; try reflexivity.
    exfalso. cbn [map fst] in Hnd. inversion Hnd as [|? ? Hnin _]. apply Hnin. left. reflexivity.
  - rewrite IH1 by exact Hnd. apply IH2.
    eapply Permutation_NoDup; [|exact Hnd]. apply Permutation_map. exact Hp1.
Qed.

(** X10: for a row whose column names are distinct, the order of the columns
    changes nothing. *)
Theorem X10_column_order_irrelevant
  (st : ReplicationStats) (unixNano : Z) (row row' : Row) :
  Permutation row row' -> NoDup (map fst row) ->
  showReplicaStatus Sscanf_d MatchString st unixNano (Scanned row)
  = showReplicaStatus Sscanf_d MatchString st unixNano (Scanned row').
Proof.
  intros Hp Hnd. apply showReplicaStatus_ext. intros f _.
  apply findColumn_perm; assumption.
Qed.

(** X9: of two columns with one name only the first is read: removing a
    column whose name occurs earlier in the row changes nothing. *)
Theorem X9_first_column_wins
  (st : ReplicationStats) (unixNano : Z) (front back : Row) (col : string) (w : Value) :
  In col (map fst front) ->
  showReplicaStatus Sscanf_d MatchString st unixNano (Scanned (front ++ (col, w) :: back))
  = showReplicaStatus Sscanf_d MatchString st unixNano (Scanned (front ++ back)).
Proof.
  intros Hin. apply showReplicaStatus_ext. intros f _.
  induction front as [|[c x] front IH]; [destruct Hin|].
  cbn [app findColumn]. destruct (String.eqb_spec c f) as [->|Hne]; [reflexivity|].
  destruct Hin as [Hc|Hin].
  - cbn [fst] in Hc. subst c.
    clear IH. induction front as [|[c' x'] front IH]; cbn [app findColumn].
    + rewrite (proj2 (String.eqb_neq col f) Hne). reflexivity.
    + destruct (String.eqb c' f); [reflexivity | exact IH].
  - apply IH. exact Hin.
Qed.

Lemma matchPatterns_lines patterns s : forall h,
  snd (matchPatterns MatchString patterns s h)
  = flat_map (patternLines MatchString s) patterns.
Proof.
  induction patterns as [|p ps IH]; intros h; [reflexivity|].
  cbn [matchPatterns flat_map]. unfold patternLines at 1.
  destruct (MatchString p s) as [[] [e|]].
  - specialize (IH h). destruct (matchPatterns MatchString ps s h) as [h' out].
    cbn [snd] in *. rewrite IH. reflexivity.
  - specialize (IH true). destruct (matchPatterns MatchString ps s true) as [h' out].
    cbn [snd] in *. rewrite IH. reflexivity.
  - specialize (IH h). destruct (matchPatterns MatchString ps s h) as [h' out].
    cbn [snd] in *. rewrite IH. reflexivity.
  - apply IH.
Qed.

(** X11: for a non-empty error text every pattern is evaluated, in order,
    also after one has matched: the lines written are those of each pattern
    in turn, and every pattern that matches without error is reported. *)
Theorem X11_every_pattern_evaluated (patterns : list string) (s : string) :
  s <> EmptyString ->
  snd (checkErrorPatterns MatchString patterns s)
  = flat_map (patternLines MatchString s) patterns /\
  (forall pattern, In pattern patterns -> MatchString pattern s = (true, None) ->
     In (OutPatternFound pattern) (snd (checkErrorPatterns MatchString patterns s))).
Proof.
  intros Hs. apply String.eqb_neq in Hs.
  unfold checkErrorPatterns. rewrite Hs. cbn [negb].
  rewrite matchPatterns_lines. split; [reflexivity|].
  intros pattern Hin Hm. apply in_flat_map. exists pattern.
  split; [exact Hin|]. unfold patternLines. rewrite Hm. left. reflexivity.
Qed.

(** X12: whether a scanned row reports an error depends on nothing but the
    text of its first [Last_SQL_Error] column: not on the lag state, the
    clock or the other columns. *)
Theorem X12_hasError_reads_only_the_error_text
  (st st' : ReplicationStats) (unixNano unixNano' : Z) (row row' : Row) :
  lastSQLErrorOf row = lastSQLErrorOf row' ->
  snd (fst (showReplicaStatus Sscanf_d MatchString st unixNano (Scanned row)))
  = snd (fst (showReplicaStatus Sscanf_d MatchString st' unixNano' (Scanned row'))).
Proof.
  intros H. rewrite !showReplicaStatus_hasError. rewrite H. reflexivity.
Qed.

(** X13: when [regexp.MatchString] finds the pattern ["Coordinator stopped"]
    in exactly the texts in which it occurs, a scanned row reports an error
    exactly when the text of its first [Last_SQL_Error] column contains
    ["Coordinator stopped"]. *)
Theorem X13_default_pattern_is_substring_test
  (st : ReplicationStats) (unixNano : Z) (row : Row) :
  (forall s, MatchString "Coordinator stopped" s
             = (containsb "Coordinator stopped" s, None)) ->
  snd (fst (showReplicaStatus Sscanf_d MatchString st unixNano (Scanned row)))
  = containsb "Coordinator stopped" (lastSQLErrorOf row).
Proof.
  intros Hlit. rewrite showReplicaStatus_hasError.
  unfold checkErrorPatterns, errorPatterns.
  destruct (String.eqb_spec (lastSQLErrorOf row) EmptyString) as [->|Hne]; [reflexivity|].
  cbn [negb matchPatterns]. rewrite Hlit.
  destruct (containsb "Coordinator stopped" (lastSQLErrorOf row)); reflexivity.
Qed.

Lemma iteration_counts st env :
  let evs := snd (iteration Sscanf_d MatchString st env) in
  queryCount evs = 1%nat /\
  execCount evs = (if matchedCycle MatchString env then 1 else 0)%nat /\
  sleepCount evs = (if matchedCycle MatchString env then 0 else 1)%nat /\
  Forall (fun e => forall d, e = EvSleep d -> d = 5 * Second) evs.
Proof.
  unfold iteration, matchedCycle.
  pose proof (showReplicaStatus_hasError Sscanf_d MatchString st (clock env) (query env)) as Hh.
  destruct (showReplicaStatus Sscanf_d MatchString st (clock env) (query env))
    as [[st' h] out].
  cbn [fst snd] in Hh. cbv zeta. cbn [snd].
  assert (Hq : filter isQuery (map EvOut out) = [])
    by (induction out as [|l out IH]; [reflexivity | exact IH]).
  assert (Hall : Forall (fun e => forall d, e = EvSleep d -> d = 5 * Second) (map EvOut out)).
  { apply Forall_forall. intros e He d ->. apply in_map_iff in He.
    destruct He as (l & Hl & _). discriminate Hl. }
  unfold queryCount, execCount, sleepCount. cbn [filter isQuery isExec isSleep].
  rewrite !filter_app, Hq, filter_isExec_out, filter_isSleep_out.
  replace (match query env with
           | Scanned row =>
               fst (checkErrorPatterns MatchString errorPatterns (lastSQLErrorOf row))
           | _ => false
           end) with h by (rewrite Hh; reflexivity).
  destruct h; cbn; repeat split; try reflexivity;
    constructor; try discriminate; apply Forall_app; split; try exact Hall;
    repeat constructor; try discriminate.
  intros d Hd. injection Hd as <-. reflexivity.
Qed.

Lemma iteration_shape st env :
  iterationShape MatchString env (snd (iteration Sscanf_d MatchString st env)).
Proof.
  unfold iterationShape, iteration, matchedCycle, recover.
  pose proof (showReplicaStatus_hasError Sscanf_d MatchString st (clock env) (query env)) as Hh.
  destruct (showReplicaStatus Sscanf_d MatchString st (clock env) (query env))
    as [[st' h] out].
  cbn [fst snd] in Hh. cbn [snd].
  replace (match query env with
           | Scanned row =>
               fst (checkErrorPatterns MatchString errorPatterns (lastSQLErrorOf row))
           | _ => false
           end) with h by (rewrite Hh; reflexivity).
  destruct h.
  - exists (out ++ [OutWarning; OutExecuting]).
    rewrite map_app, <- app_assoc. reflexivity.
  - exists out. reflexivity.
Qed.

(** X14: the trace of any number of iterations is the sequence of the traces
    of the single iterations, one per iteration and in order.  Each of them
    starts with the query, goes on with output lines only, and ends in the
    recovery command followed by its result line when the row matched, and
    in a sleep of five seconds otherwise.  So there is one query per
    iteration, one execution of the recovery command per iteration whose row
    matched, as many queries as executions and sleeps together, and every
    sleep lasts five seconds. *)
Theorem X14_loop_accounting (envs : list CycleEnv) : forall st,
  let evs := snd (mainLoop Sscanf_d MatchString st envs) in
  (exists blocks,
     evs = List.concat blocks /\ Forall2 (iterationShape MatchString) envs blocks) /\
  queryCount evs = List.length envs /\
  execCount evs = List.length (filter (matchedCycle MatchString) envs) /\
  (queryCount evs = execCount evs + sleepCount evs)%nat /\
  Forall (fun e => forall d, e = EvSleep d -> d = 5 * Second) evs.
Proof.
  induction envs as [|env rest IH]; intros st.
  - cbn. split; [exists []; split; [reflexivity|constructor]|].
    repeat split; constructor.
  - cbv zeta. rewrite mainLoop_cons.
    destruct (iteration_counts st env) as (Hq & He & Hs & Hd).
    destruct (IH (fst (iteration Sscanf_d MatchString st env)))
      as ((blocks & Hcat & Hshape) & Hq' & He' & Hs' & Hd').
    cbv zeta in Hq, He, Hs, Hd, Hcat, Hq', He', Hs', Hd'.
    split.
    + exists (snd (iteration Sscanf_d MatchString st env) :: blocks). split.
      * cbn [List.concat]. rewrite Hcat. reflexivity.
      * constructor; [apply iteration_shape | exact Hshape].
    + unfold queryCount, execCount, sleepCount in *.
      rewrite !filter_app, !length_app, Hq, He, Hs, Hq', He'.
      cbn [filter List.length].
      destruct (matchedCycle MatchString env); cbn [List.length];
        repeat split; try lia; apply Forall_app; split; assumption.
Qed.

End MoreMonitorFacts.

(** X6: no update call writes the [totalTimeElapsed] field (the elapsed time
    is a local variable of the same name), so it keeps its initial value
    through every run of update calls and of the loop. *)
Theorem X6_totalTimeElapsed_never_written
  (S : string -> option Z) (M : string -> string -> bool * option error)
  (st : ReplicationStats) (samples : list Sample) (envs : list CycleEnv) :
  totalTimeElapsed (runUpdates st samples) = totalTimeElapsed st /\
  totalTimeElapsed (fst (mainLoop S M st envs)) = totalTimeElapsed st /\
  totalTimeElapsed (fst (mainLoop S M replicationStats0 envs)) = 0%float.
Proof.
  split; [apply runUpdates_totalTimeElapsed|]. split.
  - rewrite mainLoop_stats. apply runUpdates_totalTimeElapsed.
  - rewrite mainLoop_stats, runUpdates_totalTimeElapsed. reflexivity.
Qed.

(** X16: the lag state a run of the loop leaves is decided by its lag samples
    alone: two runs with the same samples end in the same state, whatever
    the error texts, the failed queries, the pattern matcher and the results
    of the recovery command were. *)
Theorem X16_lag_state_from_samples_only
  (S1 S2 : string -> option Z) (M1 M2 : string -> string -> bool * option error)
  (st : ReplicationStats) (envs1 envs2 : list CycleEnv) :
  samplesOf S1 envs1 = samplesOf S2 envs2 ->
  fst (mainLoop S1 M1 st envs1) = fst (mainLoop S2 M2 st envs2) /\
  fst (mainLoop S1 M1 st envs1) = runUpdates st (samplesOf S1 envs1).
Proof.
  intros H. rewrite !mainLoop_stats. split; [rewrite H|]; reflexivity.
Qed.

(** * What a cycle writes: further properties *)

Section OutputFacts.

Variable Sscanf_d : string -> option Z.
Variable MatchString : string -> string -> bool * option error.

Lemma showField_printed_other row now c field :
  String.eqb field "Seconds_Behind_Source" = false ->
  printed (showField Sscanf_d row now c field) = printed c ++ plainLines row field.
Proof.
  intros H. unfold showField, plainLines. rewrite H.
  destruct (findColumn field row) as [val|]; [|symmetry; apply app_nil_r].
  destruct (strValOf val); [|reflexivity].
  destruct (String.eqb field "Last_SQL_Error"); reflexivity.
Qed.

Lemma showField_printed_lag row now c :
  printed (showField Sscanf_d row now c "Seconds_Behind_Source")
  = printed c ++ lagLines Sscanf_d (stats c) now row.
Proof.
  unfold showField, lagLines, lagSample, plainLines.
  destruct (findColumn "Seconds_Behind_Source" row) as [val|]; [|symmetry; apply app_nil_r].
  destruct (strValOf val) as [strVal|]; [|reflexivity].
  cbn [String.eqb Ascii.eqb Bool.eqb]. unfold showLag.
  destruct (negb _ && negb _); [|reflexivity].
  destruct (Sscanf_d strVal); reflexivity.
Qed.

(** What a cycle with a scanned row writes, field by field. *)
Lemma showReplicaStatus_output st unixNano row :
  snd (showReplicaStatus Sscanf_d MatchString st unixNano (Scanned row))
  = [OutHeader; OutRule]
    ++ flat_map (plainLines row) (removelast keyFields)
    ++ lagLines Sscanf_d st (Now unixNano) row
    ++ OutBlank :: snd (checkErrorPatterns MatchString errorPatterns (lastSQLErrorOf row)).
Proof.
  unfold showReplicaStatus.
  destruct (keyFields_loop Sscanf_d row (Now unixNano) st [OutHeader; OutRule]) as [_ He].
  cbv zeta in He. rewrite He.
  destruct (checkErrorPatterns MatchString errorPatterns (lastSQLErrorOf row)) as [h out].
  cbn [snd]. unfold keyFields. cbn [fold_left removelast flat_map].
  rewrite showField_printed_lag.
  rewrite !showField_stats_other by reflexivity.
  rewrite !showField_printed_other by reflexivity.
  cbn [printed stats]. rewrite !app_nil_r, <- !app_assoc. reflexivity.
Qed.

Lemma plainLines_shape row field l :
  In l (plainLines row field) -> isPerformance l = false /\ isPatternFound l = false.
Proof.
  unfold plainLines. destruct (findColumn field row) as [v|]; [|intros []].
  destruct (strValOf v); intros [<-|[]]; split; reflexivity.
Qed.

Lemma patternOutput_shape patterns s l :
  In l (snd (checkErrorPatterns MatchString patterns s)) -> isPerformance l = false.
Proof.
  unfold checkErrorPatterns. destruct (negb _); [|intros []].
  rewrite matchPatterns_lines. intros H. apply in_flat_map in H.
  destruct H as (p & _ & H). unfold patternLines in H.
  destruct (MatchString p s) as [[] [e|]]; cbn [In] in H; try contradiction;
    destruct H as [<-|[]]; reflexivity.
Qed.

Lemma lagReport_shape field st seconds now l :
  In l (lagReport field st seconds now) -> isPatternFound l = false.
Proof.
  unfold lagReport, lagLine, instantLines, averageLines. intros H.
  repeat (destruct H as [<-|H]; [case_ifs; reflexivity|]).
  apply in_app_or in H. destruct H as [H|H]; revert H; case_ifs; cbn [In];
    intros H; repeat (destruct H as [<-|H]; [reflexivity|]); destruct H.
Qed.

Lemma lagLines_shape st now row l :
  In l (lagLines Sscanf_d st now row) -> isPatternFound l = false.
Proof.
  unfold lagLines. destruct (lagSample Sscanf_d row).
  - apply lagReport_shape.
  - intros H. apply (plainLines_shape _ _ _ H).
Qed.

(** X17: the performance block is printed exactly in the cycles whose row
    carries a lag sample, that is, in the cycles that update the lag state. *)
Theorem X17_performance_block_iff_lag_sample
  (st : ReplicationStats) (unixNano : Z) (row : Row) :
  In OutPerformance (snd (showReplicaStatus Sscanf_d MatchString st unixNano (Scanned row)))
  <-> exists seconds, lagSample Sscanf_d row = Some seconds.
Proof.
  rewrite showReplicaStatus_output. split.
  - intros H. cbn [app] in H. destruct H as [H|[H|H]]; try discriminate H.
    apply in_app_or in H. destruct H as [H|H].
    + apply in_flat_map in H. destruct H as (f & _ & H).
      apply plainLines_shape in H. destruct H as [H _]. discriminate H.
    + apply in_app_or in H. destruct H as [H|[H|H]]; try discriminate H.
      * unfold lagLines in H. destruct (lagSample Sscanf_d row) as [seconds|].
        -- exists seconds. reflexivity.
        -- apply plainLines_shape in H. destruct H as [H _]. discriminate H.
      * apply patternOutput_shape in H. discriminate H.
  - intros [seconds Hs]. cbn [app]. right. right.
    apply in_or_app. right. apply in_or_app. left.
    unfold lagLines. rewrite Hs. unfold lagReport. right. left. reflexivity.
Qed.

Lemma patternFound_iff patterns s :
  (exists p, In (OutPatternFound p) (snd (checkErrorPatterns MatchString patterns s)))
  <-> fst (checkErrorPatterns MatchString patterns s) = true.
Proof.
  unfold checkErrorPatterns. destruct (negb (String.eqb s EmptyString)).
  - rewrite matchPatterns_fst, matchPatterns_lines. cbn [orb]. split.
    + intros (p & H). apply existsb_exists. apply in_flat_map in H.
      destruct H as (q & Hq & H). exists q. split; [exact Hq|].
      unfold patternLines in H. unfold patternMatches.
      destruct (MatchString q s) as [[] [e|]]; cbn [In] in H; try contradiction;
        destruct H as [H|[]]; try discriminate H; reflexivity.
    + intros H. apply existsb_exists in H. destruct H as (q & Hq & H).
      exists q. apply in_flat_map. exists q. split; [exact Hq|].
      unfold patternLines. unfold patternMatches in H.
      destruct (MatchString q s) as [[] [e|]]; try discriminate H.
      left. reflexivity.
  - cbn [fst snd]. split; [intros (p & []) | discriminate].
Qed.

(** X18: a cycle reports an error exactly when it printed a pattern-found
    line, and the loop executes the recovery command exactly in the
    iterations that printed one. *)
Theorem X18_recovery_iff_pattern_reported (st : ReplicationStats) (env : CycleEnv) :
  ((exists p, In (OutPatternFound p)
                (snd (showReplicaStatus Sscanf_d MatchString st (clock env) (query env))))
   <-> snd (fst (showReplicaStatus Sscanf_d MatchString st (clock env) (query env)))
       = true) /\
  ((exists p, In (EvOut (OutPatternFound p)) (snd (iteration Sscanf_d MatchString st env)))
   <-> In EvExec (snd (iteration Sscanf_d MatchString st env))).
Proof.
  assert (Hout : (exists p, In (OutPatternFound p)
                    (snd (showReplicaStatus Sscanf_d MatchString st (clock env) (query env))))
                 <-> snd (fst (showReplicaStatus Sscanf_d MatchString st (clock env)
                                 (query env))) = true).
  { rewrite showReplicaStatus_hasError.
    destruct (query env) as [e|e| |e|row];
      try (cbn; split; [intros (p & [H|[]]); discriminate H | discriminate]).
    rewrite showReplicaStatus_output, <- patternFound_iff. split.
    - intros (p & H). exists p. cbn [app] in H.
      destruct H as [H|[H|H]]; try discriminate H.
      apply in_app_or in H. destruct H as [H|H].
      + apply in_flat_map in H. destruct H as (f & _ & H).
        apply plainLines_shape in H. destruct H as [_ H]. discriminate H.
      + apply in_app_or in H. destruct H as [H|[H|H]]; try discriminate H.
        * apply lagLines_shape in H. discriminate H.
        * exact H.
    - intros (p & H). exists p. cbn [app]. right. right.
      apply in_or_app. right. apply in_or_app. right. right. exact H. }
  split; [exact Hout|].
  unfold iteration.
  remember (showReplicaStatus Sscanf_d MatchString st (clock env) (query env)) as r eqn:Hr.
  destruct r as [[st' h] out]. cbn [fst snd] in *. clear Hr.
  split.
  - intros (p & [H|H]); [discriminate H|].
    assert (Hh : h = true).
    { apply in_app_or in H. destruct H as [H|H].
      - apply Hout. exists p. apply in_map_iff in H.
        destruct H as (l & Hl & Hin). injection Hl as ->. exact Hin.
      - destruct h; [reflexivity|]. destruct H as [H|[]]. discriminate H. }
    rewrite Hh. right. apply in_or_app. right. unfold recover.
    right. right. left. reflexivity.
  - intros [H|H]; [discriminate H|].
    apply in_app_or in H. destruct H as [H|H].
    + apply in_map_iff in H. destruct H as (l & Hl & _). discriminate Hl.
    + assert (Hh : h = true).
      { destruct h; [reflexivity|]. destruct H as [H|[]]. discriminate H. }
      destruct (proj2 Hout Hh) as (p & Hp). exists p. right.
      apply in_or_app. left. apply in_map. exact Hp.
Qed.

End OutputFacts.

(** X19: on the second sample, with the clock advancing, the instant rate and
    the average rate are the same value: both are measured from the first
    sample. *)
Theorem X19_second_sample_rates_coincide (l0 t0 l1 t1 : Z) :
  t0 < t1 ->
  let st := runUpdates replicationStats0 [(l0, t0); (l1, t1)] in
  ratePerSecond st = averageRatePerSecond st /\
  ratePerSecond st = (ofInt64 (wrap64 (l1 - l0)) / Seconds (Sub (Now t1) (Now t0)))%float.
Proof.
  intros Hlt st.
  assert (Hr : ratePerSecond st
               = (ofInt64 (wrap64 (l1 - l0)) / Seconds (Sub (Now t1) (Now t0)))%float).
  { destruct (runUpdates_two replicationStats0 [] l0 t0 l1 t1) as (Heq & Hl & Hc).
    pose (before := runUpdates replicationStats0 ([] ++ [(l0, t0)])).
    change (st = updateLag before l1 (Now t1)) in Heq.
    change (lastSecondsBehind before = l0) in Hl.
    change (lastCheckTime before = Now t0) in Hc.
    clearbody st before. subst st.
    destruct (updateLag_instant_set before l1 (Now t1)) as [H1 _];
      [rewrite Hc; apply Now_not_zero | rewrite Hc; apply Sub_Now_pos; exact Hlt |].
    rewrite Hl, Hc in H1. exact H1. }
  split; [|exact Hr]. rewrite Hr. symmetry.
  destruct (runUpdates_first l0 t0 []) as [Ht Hs].
  apply (average_after_anchor (runUpdates replicationStats0 [(l0, t0)]) l0 t0 l1 t1 Ht Hs Hlt).
Qed.

(** * The further properties on concrete runs *)


Lemma X2_witness :
  0 < 10 * Second /\ 0 <= 10 * Second /\ minInt64 <= 90 - 100 <= maxInt64 /\
  lt0 (ratePerSecond
         (runUpdates replicationStats0 ([] ++ [(100, 0); (90, 10 * Second)]))) = true.
Proof.
  assert (H1 : 0 < 10 * Second) by reflexivity.
  assert (H2 : 0 <= 10 * Second) by discriminate.
  assert (H3 : minInt64 <= 90 - 100 <= maxInt64) by (split; discriminate).
  repeat (split; [assumption|]).
  exact (proj1 (proj1 (X2_instant_report_follows_lag_direction replicationStats0 []
                         100 0 90 (10 * Second) H1 H2 H3) eq_refl)).
Defined.

Lemma X3_witness :
  increasingTime ((100, 0) :: [] ++ [(100, 10 * Second)]) /\
  minInt64 <= 100 - 100 <= maxInt64 /\
  averageRatePerSecond
    (runUpdates replicationStats0 ((100, 0) :: [] ++ [(100, 10 * Second)])) = 0%float.
Proof.
  assert (H1 : increasingTime ((100, 0) :: [] ++ [(100, 10 * Second)])).
  { unfold increasingTime. cbn [map snd app]. repeat constructor. }
  assert (H2 : minInt64 <= 100 - 100 <= maxInt64) by (split; discriminate).
  repeat (split; [assumption|]).
  exact (proj1 (proj1 (proj2 (X3_average_report_follows_lag_direction
                                100 0 [] 100 (10 * Second) H1 H2)) eq_refl)).
Defined.

Lemma X9_witness :
  In "Last_SQL_Error"%string (map fst [("Last_SQL_Error"%string, VBytes EmptyString)]) /\
  showReplicaStatus scanDecimal literalMatchString replicationStats0 0
    (Scanned ([("Last_SQL_Error"%string, VBytes EmptyString)]
              ++ ("Last_SQL_Error"%string, VBytes "Coordinator stopped") :: []))
  = showReplicaStatus scanDecimal literalMatchString replicationStats0 0
      (Scanned ([("Last_SQL_Error"%string, VBytes EmptyString)] ++ [])).
Proof.
  assert (H : In "Last_SQL_Error"%string (map fst [("Last_SQL_Error"%string, VBytes EmptyString)]))
    by (left; reflexivity).
  split; [exact H|].
  exact (X9_first_column_wins scanDecimal literalMatchString replicationStats0 0
           [("Last_SQL_Error"%string, VBytes EmptyString)] [] "Last_SQL_Error"
           (VBytes "Coordinator stopped") H).
Defined.

Lemma X10_witness :
  let row := [("Source_Host"%string, VBytes "db1");
              ("Seconds_Behind_Source"%string, VBytes "7")] in
  let row' := [("Seconds_Behind_Source"%string, VBytes "7");
               ("Source_Host"%string, VBytes "db1")] in
  Permutation row row' /\ NoDup (map fst row) /\
  showReplicaStatus scanDecimal literalMatchString replicationStats0 0 (Scanned row)
  = showReplicaStatus scanDecimal literalMatchString replicationStats0 0 (Scanned row').
Proof.
  cbv zeta.
  assert (Hp : Permutation
                 [("Source_Host"%string, VBytes "db1");
                  ("Seconds_Behind_Source"%string, VBytes "7")]
                 [("Seconds_Behind_Source"%string, VBytes "7");
                  ("Source_Host"%string, VBytes "db1")]) by apply perm_swap.
  assert (Hn : NoDup (map fst [("Source_Host"%string, VBytes "db1");
                               ("Seconds_Behind_Source"%string, VBytes "7")])).
  { cbn [map fst]. constructor; [|constructor; [intros []|constructor]].
    intros [H|[]]. discriminate H. }
  split; [exact Hp|]. split; [exact Hn|].
  exact (X10_column_order_irrelevant scanDecimal literalMatchString replicationStats0 0
           _ _ Hp Hn).
Defined.

Lemma X11_witness :
  "Coordinator stopped"%string <> EmptyString /\
  snd (checkErrorPatterns literalMatchString ["Coordinator"; "stopped"]%string
         "Coordinator stopped")
  = [OutPatternFound "Coordinator"; OutPatternFound "stopped"].
Proof.
  assert (H : "Coordinator stopped"%string <> EmptyString) by discriminate.
  split; [exact H|].
  etransitivity;
    [exact (proj1 (X11_every_pattern_evaluated literalMatchString
                     ["Coordinator"; "stopped"]%string "Coordinator stopped" H))|].
  reflexivity.
Defined.

Lemma X12_witness :
  let row := [("Last_SQL_Error"%string, VBytes "Coordinator stopped")] in
  let row' := [("Seconds_Behind_Source"%string, VBytes "100");
               ("Last_SQL_Error"%string, VString "Coordinator stopped")] in
  lastSQLErrorOf row = lastSQLErrorOf row' /\
  snd (fst (showReplicaStatus scanDecimal literalMatchString replicationStats0 0
              (Scanned row)))
  = snd (fst (showReplicaStatus scanDecimal literalMatchString
                (updateLag replicationStats0 5 (Now 0)) (10 * Second) (Scanned row'))).
Proof.
  cbv zeta.
  assert (H : lastSQLErrorOf [("Last_SQL_Error"%string, VBytes "Coordinator stopped")]
              = lastSQLErrorOf [("Seconds_Behind_Source"%string, VBytes "100");
                                ("Last_SQL_Error"%string, VString "Coordinator stopped")])
    by reflexivity.
  split; [exact H|].
  exact (X12_hasError_reads_only_the_error_text scanDecimal literalMatchString
           replicationStats0 (updateLag replicationStats0 5 (Now 0)) 0 (10 * Second)
           _ _ H).
Defined.

Lemma X13_witness :
  snd (fst (showReplicaStatus scanDecimal literalMatchString replicationStats0 0
              (Scanned [("Last_SQL_Error"%string,
                         VBytes "Error: Coordinator stopped because of a failure")])))
  = true.
Proof.
  etransitivity;
    [exact (X13_default_pattern_is_substring_test scanDecimal literalMatchString
              replicationStats0 0
              [("Last_SQL_Error"%string,
                VBytes "Error: Coordinator stopped because of a failure")]
              (fun s => literalMatchString_literal "Coordinator stopped" s eq_refl))|].
  reflexivity.
Defined.

Lemma X16_witness :
  let envs1 := [mkEnv 0 (Scanned [("Seconds_Behind_Source"%string, VBytes "100")]) None] in
  let envs2 := [mkEnv (5 * Second) NoRows None;
                mkEnv 0 (Scanned [("Seconds_Behind_Source"%string, VBytes "100");
                                  ("Last_SQL_Error"%string, VBytes "Coordinator stopped")])
                      (Some "connection lost"%string)] in
  samplesOf scanDecimal envs1 = samplesOf scanDecimal envs2 /\
  fst (mainLoop scanDecimal literalMatchString replicationStats0 envs1)
  = fst (mainLoop scanDecimal (fun _ _ => (false, None)) replicationStats0 envs2).
Proof.
  cbv zeta.
  assert (H : samplesOf scanDecimal
                [mkEnv 0 (Scanned [("Seconds_Behind_Source"%string, VBytes "100")]) None]
              = samplesOf scanDecimal
                  [mkEnv (5 * Second) NoRows None;
                   mkEnv 0 (Scanned [("Seconds_Behind_Source"%string, VBytes "100");
                                     ("Last_SQL_Error"%string, VBytes "Coordinator stopped")])
                         (Some "connection lost"%string)]) by reflexivity.
  split; [exact H|].
  exact (proj1 (X16_lag_state_from_samples_only scanDecimal scanDecimal
                  literalMatchString (fun _ _ => (false, None)) replicationStats0
                  _ _ H)).
Defined.

Lemma X19_witness :
  0 < 10 * Second /\
  averageRatePerSecond (runUpdates replicationStats0 [(100, 0); (90, 10 * Second)])
  = (-1)%float.
Proof.
  assert (H : 0 < 10 * Second) by reflexivity.
  split; [exact H|].
  etransitivity;
    [symmetry; exact (proj1 (X19_second_sample_rates_coincide 100 0 90 (10 * Second) H))|].
  vm_compute. reflexivity.
Defined.
